(** * Dance trainer front end: a shallow embedding and its properties

    The development follows the React front end of the dance trainer:
    the HTTP client [DanceAPI], the session hook [useDanceSession], the
    practice pages with their countdown and snapshot handler, the
    [LiveFeedback] message list, and the beat clock the practice page reads.

    JavaScript numbers are modelled by exact rationals ([Q]) where the code
    computes with fractions and by [Z] where it only counts; where the code
    stores the result of a product, the product is rounded to the nearest
    double as the machine rounds it ([Double.mul]).  A promise is
    modelled by the outcome it settles with, browser timers by a queue of
    pending callbacks with their due times (in milliseconds), and React
    state by a record that the setters update. *)

From Stdlib Require Import ZArith QArith Qround Qabs Qpower Bool List String Lia.
From Stdlib Require Import DecimalString.
From Stdlib Require Finite DecimalZ.
From Stdlib Require Import Lqa.
Import ListNotations.

Local Open Scope Z_scope.

(** ** JavaScript values the code relies on *)

Module Js.

(** A JavaScript [Error]: only its message is observed. *)
Record Error := mkError { message : string }.

(** The way a promise settles. *)
Inductive Outcome (T : Type) : Type :=
| Resolved (value : T)
| Rejected (error : Error).
Arguments Resolved {T} value.
Arguments Rejected {T} error.

Definition isRejected {T} (o : Outcome T) : bool :=
  match o with Rejected _ => true | Resolved _ => false end.

(** A value of type [any]: parsed JSON. *)
#[warnings="-register-all"] Inductive Json :=
| JNull
| JBool (b : bool)
| JNumber (q : Q)
| JString (s : string)
| JArray (items : list Json)
| JObject (fields : list (string * Json)).

(** [Math.floor] and [Math.round] on finite numbers; [Math.round] rounds
    halves towards plus infinity. *)
Definition Math_floor (x : Q) : Z := Qfloor x.
Definition Math_round (x : Q) : Z := Qfloor (x + (1 # 2)).

(** Number to string conversion of an integer, as a template literal
    does it. *)
Definition String_of_int (z : Z) : string :=
  NilEmpty.string_of_int (Z.to_int z).

(** One call of [console.log] or [console.error]: the label and the
    string arguments that follow it (objects are not rendered). *)
Inductive LogEntry :=
| console_log (label : string) (args : list string)
| console_error (label : string) (error : Error).

(** An async function body over a store [S]: it reads and writes the
    store and settles with a value or with a thrown error. *)
Section Async.
Context {S : Type}.

Definition Async (T : Type) : Type := S -> Outcome T * S.

Definition ret {T} (v : T) : Async T := fun s => (Resolved v, s).

Definition throw {T} (e : Error) : Async T := fun s => (Rejected e, s).

Definition bind {T U} (m : Async T) (k : T -> Async U) : Async U :=
  fun s =>
    match m s with
    | (Resolved v, s') => k v s'
    | (Rejected e, s') => (Rejected e, s')
    end.

(** [await p] for a promise that settles with [p]. *)
Definition await {T} (p : Outcome T) : Async T := fun s => (p, s).

(** [try { body } catch (error) { handler }]. *)
Definition try_catch {T} (body : Async T) (handler : Error -> Async T)
  : Async T :=
  fun s =>
    match body s with
    | (Resolved v, s') => (Resolved v, s')
    | (Rejected e, s') => handler e s'
    end.

(** A state setter or a console call. *)
Definition update (f : S -> S) : Async unit := fun s => (Resolved tt, f s).
End Async.
Arguments Async : clear implicits.

End Js.
Export Js.

(** ** Double-precision arithmetic

    A finite JavaScript number is a double: a rational of the form m * 2^e
    with |m| at most 2^53 and e at least -1074.  An arithmetic operation
    returns the double nearest to the exact result, ties going to the even
    significand.  Results of magnitude 2^1024 and beyond, which the machine
    turns into Infinity, and NaN are outside these numbers. *)

Module Double.

(** floor(log2 q) for q > 0. *)
Definition log2floor (q : Q) : Z :=
  let k := Z.log2 (Qnum q) - Z.log2 (Zpos (Qden q)) in
  if Qle_bool (2 ^ k) q then k else k - 1.

(** The exponent of the unit in the last place of the doubles around
    [q]: 52 below the exponent of [q], and -1074 in the subnormal range. *)
Definition exponent (q : Q) : Z := Z.max (log2floor (Qabs q) - 52) (-1074).

(** The nearest integer, ties to even. *)
Definition round_half_even (x : Q) : Z :=
  let n := Qfloor x in
  match (x - inject_Z n ?= 1 # 2)%Q with
  | Lt => n
  | Gt => n + 1
  | Eq => if Z.even n then n else n + 1
  end.

(** The double nearest to [q], in lowest terms. *)
Definition nearest (q : Q) : Q :=
  Qred (inject_Z (round_half_even (q / 2 ^ exponent q)) * 2 ^ exponent q).

(** [x * y] on doubles. *)
Definition mul (x y : Q) : Q := nearest (x * y).

(** The numbers that are doubles. *)
Definition representable (q : Q) : Prop := (nearest q == q)%Q.

End Double.

Declare Scope async_scope.
Delimit Scope async_scope with async.
Notation "x <- m ;; k" := (bind m (fun x => k))
  (at level 61, m at next level, right associativity) : async_scope.
Notation "m ;; k" := (bind m (fun _ => k))
  (at level 61, right associativity) : async_scope.

(** ** Browser timers *)

Module Timers.
Section Timers.
Context {A : Type}.

(** A pending [setTimeout] or [setInterval] callback. *)
Record timer := mkTimer { tid : nat; due : Z; callback : A }.

(** [clearTimeout] and [clearInterval]. *)
Definition clearTimer (id : nat) (l : list timer) : list timer :=
  filter (fun t => negb (Nat.eqb (tid t) id)) l.

(** The pending timer that fires next: the least due time, and among
    equal due times the one registered first. *)
Fixpoint earliest (l : list timer) : option timer :=
  match l with
  | [] => None
  | t :: l' =>
      match earliest l' with
      | Some t' => if due t' <? due t then Some t' else Some t
      | None => Some t
      end
  end.
End Timers.
Arguments timer : clear implicits.
End Timers.

(** ** BeatClock *)

Module BeatClock.

Record BeatState := mkBeatState { currentBeat : Z; beatProgress : Q }.

Inductive ConfigurationError := InvalidBpm | InvalidTotalBeats.

Definition elapsedBeats (elapsedTime bpm : Q) : Q :=
  elapsedTime * bpm / 60.

(** Modelled from the spec: the hook [useVideoBeatSync]
    (hooks/useVideoBeatSync), which the practice page imports and calls but
    whose file is not part of the sources.  The spec gives
    elapsedBeats = elapsedTime_seconds * bpm / 60, currentBeat =
    floor(elapsedBeats) clamped so that it never exceeds totalBeats - 1,
    beatProgress the fractional remainder of elapsedBeats, and a
    configuration error for bpm <= 0 or totalBeats <= 0. *)
Definition useVideoBeatSync (elapsedTime bpm : Q) (totalBeats : Z)
  : ConfigurationError + BeatState :=
  if Qle_bool bpm 0 then inl InvalidBpm
  else if totalBeats <=? 0 then inl InvalidTotalBeats
  else
    let eb := elapsedBeats elapsedTime bpm in
    inr {| currentBeat := Z.min (Math_floor eb) (totalBeats - 1);
           beatProgress := eb - inject_Z (Math_floor eb) |}.

(** The reference definition alone, with no clamp; it follows the words
    of the invariant sentence and is compared with the hook. *)
Definition reference (elapsedTime bpm : Q) : BeatState :=
  let eb := elapsedBeats elapsedTime bpm in
  {| currentBeat := Math_floor eb;
     beatProgress := eb - inject_Z (Math_floor eb) |}.

End BeatClock.

(** ** services/danceAPI.ts *)

Module DanceAPI.

Definition API_BASE_URL : string := "http://localhost:8000".

(** *** Request and response shapes *)

Record HandClassification := { label : string; confidence : Q }.

Record ComparisonResult := {
  pose_score : Q;
  motion_score : Q;
  combined_score : Q;
  best_match_idx : Z;
  timing_offset : Q
}.

Record ProcessSnapshotResponse := {
  timestamp : Q;
  pose_landmarks : option (list (list Q));
  hand_landmarks : list (list (list Q));
  hand_classifications : list HandClassification;
  preprocessed_angles : list (string * Q);
  comparison_result : option ComparisonResult;
  live_feedback : option string;
  success : bool;
  error : option string
}.

Record StartSessionResponse := { session_id : string; message : string }.

Record LoadReferenceResponse := { video_name : string; load_message : string }.

Record UpdateConfigRequest := {
  pose_weight : option Q;
  motion_weight : option Q;
  snapshot_interval : option Q
}.

Record SessionStatusResponse := {
  status_session_id : option string;
  start_time : option Q;
  pose_count : Z;
  reference_video : option string;
  session_duration : Q
}.

Record ConnectionResponse := { status_text : string; status_message : string }.

Record CurrentReferenceResponse := { current_video_name : option string }.

(** The argument of [JSON.stringify], kept as the object it serialises. *)
Inductive Body :=
| Body_image (image : string)
| Body_video_name (name : string)
| Body_config (config : UpdateConfigRequest).

Record RequestInit := {
  method : option string;
  headers : option (list (string * string));
  body : option Body
}.

(** The options default, [{}]. *)
Definition no_options : RequestInit :=
  {| method := None; headers := None; body := None |}.

(** What the code reads of a [Response]: the status, from which [ok]
    derives, and the promise [json()] returns, which rejects when the body
    is not valid JSON. *)
Record Response (T : Type) := { status : Z; json : Outcome T }.
Arguments status {T} _.
Arguments json {T} _.

Definition ok {T} (response : Response T) : bool :=
  (200 <=? status response) && (status response <=? 299).

(** The type arguments [request<T>] is used at, and the rest ([any] and
    the inline object types) by their own codes. *)
Inductive ResponseType :=
| T_ProcessSnapshotResponse
| T_StartSessionResponse
| T_LoadReferenceResponse
| T_any
| T_SessionStatusResponse
| T_ConnectionResponse
| T_CurrentReferenceResponse.

Definition El (t : ResponseType) : Type :=
  match t with
  | T_ProcessSnapshotResponse => ProcessSnapshotResponse
  | T_StartSessionResponse => StartSessionResponse
  | T_LoadReferenceResponse => LoadReferenceResponse
  | T_any => Json
  | T_SessionStatusResponse => SessionStatusResponse
  | T_ConnectionResponse => ConnectionResponse
  | T_CurrentReferenceResponse => CurrentReferenceResponse
  end.

(** The network as [fetch] sees it: for a URL and an init object the
    promise rejects (no response at all) or resolves with a response,
    whose parsed body is read at the type the caller expects. *)
Definition Fetch : Type :=
  forall T : ResponseType, string -> RequestInit -> Outcome (Response (El T)).

(** The init object [{ headers: { 'Content-Type': 'application/json',
    ...options.headers }, ...options }]: the spread of [options] comes
    last, so a [headers] key of [options] replaces the merged one. *)
Definition fetch_init (options : RequestInit) : RequestInit :=
  let merged :=
    ("Content-Type", "application/json")%string ::
    match headers options with Some h => h | None => [] end in
  {| method := method options;
     headers := match headers options with
                | Some h => Some h
                | None => Some merged
                end;
     body := body options |}.

Definition request {T} (fetch : Fetch) (endpoint : string)
  (options : RequestInit) : Outcome (El T) :=
  let url := (API_BASE_URL ++ endpoint)%string in
  match fetch T url (fetch_init options) with
  | Rejected e => Rejected e
  | Resolved response =>
      if negb (ok response)
      then Rejected
             (mkError ("HTTP error! status: "
                       ++ String_of_int (status response))%string)
      else json response
  end.

Definition POST (b : option Body) : RequestInit :=
  {| method := Some "POST"%string; headers := None; body := b |}.

Definition processSnapshot (fetch : Fetch) (imageData : string)
  : Outcome ProcessSnapshotResponse :=
  request (T := T_ProcessSnapshotResponse) fetch "/api/sessions/snapshot" (POST (Some (Body_image imageData))).

Definition startSession (fetch : Fetch) : Outcome StartSessionResponse :=
  request (T := T_StartSessionResponse) fetch "/api/sessions/start" (POST None).

Definition endSession (fetch : Fetch) : Outcome StartSessionResponse :=
  request (T := T_StartSessionResponse) fetch "/api/sessions/end" (POST None).

Definition loadReferenceVideo (fetch : Fetch) (videoName : string)
  : Outcome LoadReferenceResponse :=
  request (T := T_LoadReferenceResponse) fetch "/api/reference/load"
    (POST (Some (Body_video_name videoName))).

Definition updateConfig (fetch : Fetch) (config : UpdateConfigRequest)
  : Outcome Json :=
  request (T := T_any) fetch "/api/config/update" (POST (Some (Body_config config))).

Definition getConfig (fetch : Fetch) : Outcome Json :=
  request (T := T_any) fetch "/api/config" no_options.

Definition getSessionStatus (fetch : Fetch) : Outcome SessionStatusResponse :=
  request (T := T_SessionStatusResponse) fetch "/api/sessions/status" no_options.

Definition testConnection (fetch : Fetch) : Outcome ConnectionResponse :=
  request (T := T_ConnectionResponse) fetch "/health" no_options.

Definition getCurrentReference (fetch : Fetch)
  : Outcome CurrentReferenceResponse :=
  request (T := T_CurrentReferenceResponse) fetch "/api/reference/current" no_options.

(** The public methods, indexed by the type they resolve with. *)
Inductive Method : ResponseType -> Type :=
| M_processSnapshot (imageData : string) : Method T_ProcessSnapshotResponse
| M_startSession : Method T_StartSessionResponse
| M_endSession : Method T_StartSessionResponse
| M_loadReferenceVideo (videoName : string) : Method T_LoadReferenceResponse
| M_updateConfig (config : UpdateConfigRequest) : Method T_any
| M_getConfig : Method T_any
| M_getSessionStatus : Method T_SessionStatusResponse
| M_testConnection : Method T_ConnectionResponse
| M_getCurrentReference : Method T_CurrentReferenceResponse.

Definition call (fetch : Fetch) {T} (m : Method T) : Outcome (El T) :=
  match m in Method T return Outcome (El T) with
  | M_processSnapshot imageData => processSnapshot fetch imageData
  | M_startSession => startSession fetch
  | M_endSession => endSession fetch
  | M_loadReferenceVideo videoName => loadReferenceVideo fetch videoName
  | M_updateConfig config => updateConfig fetch config
  | M_getConfig => getConfig fetch
  | M_getSessionStatus => getSessionStatus fetch
  | M_testConnection => testConnection fetch
  | M_getCurrentReference => getCurrentReference fetch
  end.

(** The URL and init object a method hands to [fetch]. *)
Definition endpoint_of {T} (m : Method T) : string :=
  match m with
  | M_processSnapshot _ => "/api/sessions/snapshot"
  | M_startSession => "/api/sessions/start"
  | M_endSession => "/api/sessions/end"
  | M_loadReferenceVideo _ => "/api/reference/load"
  | M_updateConfig _ => "/api/config/update"
  | M_getConfig => "/api/config"
  | M_getSessionStatus => "/api/sessions/status"
  | M_testConnection => "/health"
  | M_getCurrentReference => "/api/reference/current"
  end.

Definition options_of {T} (m : Method T) : RequestInit :=
  match m with
  | M_processSnapshot imageData => POST (Some (Body_image imageData))
  | M_startSession | M_endSession => POST None
  | M_loadReferenceVideo videoName => POST (Some (Body_video_name videoName))
  | M_updateConfig config => POST (Some (Body_config config))
  | _ => no_options
  end.

Definition sent {T} (fetch : Fetch) (m : Method T)
  : Outcome (Response (El T)) :=
  fetch T (API_BASE_URL ++ endpoint_of m)%string (fetch_init (options_of m)).

(** The claim C9 read literally: once the server has answered, a method
    rejects exactly when the status is not a success status. *)
Definition rejects_exactly_on_bad_status : Prop :=
  forall (fetch : Fetch) T (m : Method T) (response : Response (El T)),
    sent fetch m = Resolved response ->
    (isRejected (call fetch m) = true <-> ok response = false).

(** A server that answers every request with status 200 and a body that
    is not JSON, so that [response.json()] rejects. *)
Definition malformed_body : Fetch :=
  fun T _ _ =>
    Resolved {| status := 200;
                json := Rejected (mkError "Unexpected token < in JSON") |}.

(** A server that answers every request with status 500. *)
Definition internal_server_error : Fetch :=
  fun T _ _ =>
    Resolved {| status := 500;
                json := Rejected (mkError "Unexpected end of JSON input") |}.

(** A server where starting and ending a session succeed with the given
    session id, and everything else answers 500. *)
Definition session_server (id : string) : Fetch :=
  fun T url init =>
    match T return Outcome (Response (El T)) with
    | T_StartSessionResponse =>
        Resolved {| status := 200;
                    json := Resolved {| session_id := id;
                                        message := "ok" |} |}
    | T' => internal_server_error T' url init
    end.

(** No network: [fetch] itself rejects. *)
Definition offline : Fetch :=
  fun T _ _ => Rejected (mkError "Failed to fetch").

End DanceAPI.

(** ** hooks/useDanceSession.ts *)

Module useDanceSession.

Record State := {
  sessionId : option string;
  isSessionActive : bool;
  console : list LogEntry
}.

(** [useState(null)] and [useState(false)]. *)
Definition initial : State :=
  {| sessionId := None; isSessionActive := false; console := [] |}.

Definition setSessionId (v : option string) : Async State unit :=
  update (fun s => {| sessionId := v;
                      isSessionActive := isSessionActive s;
                      console := console s |}).

Definition setIsSessionActive (v : bool) : Async State unit :=
  update (fun s => {| sessionId := sessionId s;
                      isSessionActive := v;
                      console := console s |}).

Definition log (e : LogEntry) : Async State unit :=
  update (fun s => {| sessionId := sessionId s;
                      isSessionActive := isSessionActive s;
                      console := console s ++ [e] |}).

Local Open Scope async_scope.
Local Open Scope string_scope.

Definition startDanceSession (fetch : DanceAPI.Fetch)
  : Async State DanceAPI.StartSessionResponse :=
  try_catch
    (response <- await (DanceAPI.startSession fetch) ;;
     setSessionId (Some (DanceAPI.session_id response)) ;;
     setIsSessionActive true ;;
     log (console_log "Dance session started:"
            [DanceAPI.session_id response]) ;;
     ret response)
    (fun error =>
       log (console_error "Failed to start dance session:" error) ;;
       throw error).

Definition endDanceSession (fetch : DanceAPI.Fetch)
  : Async State DanceAPI.StartSessionResponse :=
  try_catch
    (response <- await (DanceAPI.endSession fetch) ;;
     setSessionId None ;;
     setIsSessionActive false ;;
     log (console_log "Dance session ended:"
            [DanceAPI.session_id response]) ;;
     ret response)
    (fun error =>
       log (console_error "Failed to end dance session:" error) ;;
       throw error).

Definition processSnapshot (fetch : DanceAPI.Fetch) (snapshot : string)
  : Async State DanceAPI.ProcessSnapshotResponse :=
  try_catch
    (response <- await (DanceAPI.processSnapshot fetch snapshot) ;;
     ret response)
    (fun error =>
       log (console_error "Failed to process snapshot:" error) ;;
       throw error).

Definition loadReferenceVideo (fetch : DanceAPI.Fetch) (videoName : string)
  : Async State DanceAPI.LoadReferenceResponse :=
  try_catch
    (response <- await (DanceAPI.loadReferenceVideo fetch videoName) ;;
     log (console_log "Reference video loaded:"
            [DanceAPI.video_name response]) ;;
     ret response)
    (fun error =>
       log (console_error "Failed to load reference video:" error) ;;
       throw error).

Definition testBackendConnection (fetch : DanceAPI.Fetch)
  : Async State DanceAPI.ConnectionResponse :=
  try_catch
    (response <- await (DanceAPI.testConnection fetch) ;;
     log (console_log "Backend connection test:" []) ;;
     ret response)
    (fun error =>
       log (console_error "Backend connection failed:" error) ;;
       throw error).

End useDanceSession.

(** ** pages/PracticePage.tsx and pages/EnhancedPracticePage.tsx

    The two pages share the countdown; the enhanced page adds the snapshot
    capture hook and the snapshot handler. *)

Module PracticePage.

Inductive Page := Practice | EnhancedPractice.

(** Modelled from the spec: the type [MockFeedbackResponse] of
    services/mockFeedbackService, a file that is not part of the sources.
    The page reads [comparison_result.combined_score] and [live_feedback]
    of it; a ComparisonResult carries poseScore, motionScore, combinedScore
    and the timing offset, as the backend response type of
    services/danceAPI.ts does. *)
Record MockFeedbackResponse := {
  comparison_result : option DanceAPI.ComparisonResult;
  live_feedback : option string
}.

(** The second argument of [mockFeedbackService.processSnapshot]. *)
Record MockOptions := {
  baseScore : Q;
  feedbackFrequency : Q;
  includeErrors : bool
}.

(** The mock service, a file that is not part of the sources: the way the
    promise of [processSnapshot(snapshot, options)] settles. *)
Definition FeedbackService : Type :=
  string -> MockOptions -> Outcome MockFeedbackResponse.

(** The two callbacks the countdown effect hands to [setTimeout]. *)
Inductive TimerCallback :=
| Tick (countdown : Z)   (* () => setCountdown(countdown - 1) *)
| Launch.                (* the callback of the 500 ms timeout *)

Record State := mkState {
  isPlaying : bool;
  hasStarted : bool;
  countdown : option Z;
  currentFeedback : option MockFeedbackResponse;
  overallAccuracy : Z;
  (** [isCapturing] of the capture hook *)
  isCapturing : bool;
  console : list LogEntry;
  (** the browser: current time, pending timeouts, next timer id *)
  clock : Z;
  timers : list (Timers.timer TimerCallback);
  nextTimerId : nat;
  (** the timeout the cleanup of the last countdown effect clears *)
  cleanup : option nat
}.

(** The state after the first render: the [useState] initial values, and
    the countdown effect has run once on [null] and returned. *)
Definition initial : State :=
  {| isPlaying := false; hasStarted := false; countdown := None;
     currentFeedback := None; overallAccuracy := 82;
     isCapturing := false; console := [];
     clock := 0; timers := []; nextTimerId := 0; cleanup := None |}.

(** *** Setters *)

Definition setIsPlaying (v : bool) (s : State) : State :=
  mkState v (hasStarted s) (countdown s) (currentFeedback s)
    (overallAccuracy s) (isCapturing s) (console s) (clock s) (timers s)
    (nextTimerId s) (cleanup s).

Definition setHasStarted (v : bool) (s : State) : State :=
  mkState (isPlaying s) v (countdown s) (currentFeedback s)
    (overallAccuracy s) (isCapturing s) (console s) (clock s) (timers s)
    (nextTimerId s) (cleanup s).

Definition storeCountdown (v : option Z) (s : State) : State :=
  mkState (isPlaying s) (hasStarted s) v (currentFeedback s)
    (overallAccuracy s) (isCapturing s) (console s) (clock s) (timers s)
    (nextTimerId s) (cleanup s).

Definition setCurrentFeedback (v : option MockFeedbackResponse) (s : State)
  : State :=
  mkState (isPlaying s) (hasStarted s) (countdown s) v
    (overallAccuracy s) (isCapturing s) (console s) (clock s) (timers s)
    (nextTimerId s) (cleanup s).

Definition setOverallAccuracy (v : Z) (s : State) : State :=
  mkState (isPlaying s) (hasStarted s) (countdown s) (currentFeedback s)
    v (isCapturing s) (console s) (clock s) (timers s)
    (nextTimerId s) (cleanup s).

Definition setIsCapturing (v : bool) (s : State) : State :=
  mkState (isPlaying s) (hasStarted s) (countdown s) (currentFeedback s)
    (overallAccuracy s) v (console s) (clock s) (timers s)
    (nextTimerId s) (cleanup s).

Definition log (e : LogEntry) (s : State) : State :=
  mkState (isPlaying s) (hasStarted s) (countdown s) (currentFeedback s)
    (overallAccuracy s) (isCapturing s) (console s ++ [e]) (clock s)
    (timers s) (nextTimerId s) (cleanup s).

Definition setClock (v : Z) (s : State) : State :=
  mkState (isPlaying s) (hasStarted s) (countdown s) (currentFeedback s)
    (overallAccuracy s) (isCapturing s) (console s) v (timers s)
    (nextTimerId s) (cleanup s).

Definition setCleanup (v : option nat) (s : State) : State :=
  mkState (isPlaying s) (hasStarted s) (countdown s) (currentFeedback s)
    (overallAccuracy s) (isCapturing s) (console s) (clock s) (timers s)
    (nextTimerId s) v.

(** *** Timers *)

(** [setTimeout(callback, delay)]: the new timer's id, and the state. *)
Definition setTimeout (callback : TimerCallback) (delay : Z) (s : State)
  : nat * State :=
  (nextTimerId s,
   mkState (isPlaying s) (hasStarted s) (countdown s) (currentFeedback s)
     (overallAccuracy s) (isCapturing s) (console s) (clock s)
     (timers s ++ [Timers.mkTimer (nextTimerId s) (clock s + delay) callback])
     (S (nextTimerId s)) (cleanup s)).

Definition clearTimeout (id : nat) (s : State) : State :=
  mkState (isPlaying s) (hasStarted s) (countdown s) (currentFeedback s)
    (overallAccuracy s) (isCapturing s) (console s) (clock s)
    (Timers.clearTimer id (timers s)) (nextTimerId s) (cleanup s).

(** *** The countdown *)

(** The body of the countdown effect, run after a render in which
    [countdown] changed; it records the cleanup it returns. *)
Definition countdownEffect (s : State) : State :=
  match countdown s with
  | None => setCleanup None s
  | Some c =>
      if c =? 0 then
        setCleanup None (snd (setTimeout Launch 500 s))
      else
        let (timer, s') := setTimeout (Tick c) 1000 s in
        setCleanup (Some timer) s'
  end.

(** The cleanup of the previous run: [clearTimeout(timer)], if that run
    returned one. *)
Definition runCleanup (s : State) : State :=
  match cleanup s with
  | Some timer => clearTimeout timer s
  | None => s
  end.

(** [===] on [number | null]. *)
Definition same_countdown (a b : option Z) : bool :=
  match a, b with
  | None, None => true
  | Some x, Some y => x =? y
  | _, _ => false
  end.

(** [setCountdown(v)] and the render that follows: storing the value the
    state already holds changes nothing and the effect, whose dependency is
    [countdown], does not run; otherwise the previous cleanup runs and
    then the effect.  ([startAutoCapture], the other dependency on the
    enhanced page, is taken to keep its identity between renders.) *)
Definition setCountdown (v : option Z) (s : State) : State :=
  if same_countdown v (countdown s) then s
  else countdownEffect (runCleanup (storeCountdown v s)).

Definition handleStart (s : State) : State := setCountdown (Some 3) s.

(** Modelled from the spec: [startAutoCapture] and [stopAutoCapture] of
    the hook [useSnapshotCapture] (hooks/useSnapshotCapture), a file that
    is not part of the sources; they enable and disable the snapshot
    scheduler, which the page observes as [isCapturing]. *)
Definition startAutoCapture (s : State) : State := setIsCapturing true s.
Definition stopAutoCapture (s : State) : State := setIsCapturing false s.

(** What a timer does when it fires. *)
Definition runCallback (page : Page) (cb : TimerCallback) (s : State)
  : State :=
  match cb with
  | Tick c => setCountdown (Some (c - 1)) s
  | Launch =>
      let s := setCountdown None s in
      let s := setHasStarted true s in
      let s := setIsPlaying true s in
      match page with
      | EnhancedPractice => startAutoCapture s
      | Practice => s
      end
  end.

(** The next pending timeout fires: time moves to its due time, the
    timeout leaves the queue and its callback runs.  Nothing happens when
    no timeout is pending. *)
Definition fireTimer (page : Page) (s : State) : State :=
  match Timers.earliest (timers s) with
  | None => s
  | Some t =>
      runCallback page (Timers.callback t)
        (clearTimeout (Timers.tid t)
           (setClock (Z.max (clock s) (Timers.due t)) s))
  end.

Fixpoint fireTimers (page : Page) (n : nat) (s : State) : State :=
  match n with
  | O => s
  | S n' => fireTimers page n' (fireTimer page s)
  end.

(** The Start button is rendered when [!hasStarted && countdown === null];
    a click on it calls [handleStart]. *)
Definition startButtonShown (s : State) : bool :=
  negb (hasStarted s) &&
  match countdown s with None => true | Some _ => false end.

Definition clickStart (s : State) : State :=
  if startButtonShown s then handleStart s else s.

(** The phases of the session as the page's state shows them. *)
Inductive SessionPhase := Idle | Countdown (n : Z) | Running.

Definition phase (s : State) : SessionPhase :=
  match countdown s with
  | Some n => Countdown n
  | None => if hasStarted s then Running else Idle
  end.

(** *** The snapshot handler (enhanced page) *)

Definition mockOptions : MockOptions :=
  {| baseScore := 3 # 4; feedbackFrequency := 3 # 10; includeErrors := true |}.

(** [handleSnapshot] up to its [await]: the guard on [hasStarted], then
    the call of the service.  [None] is the early return. *)
Definition handleSnapshot_issue (snapshot : string) (s : State)
  : option (string * MockOptions) :=
  if negb (hasStarted s) then None else Some (snapshot, mockOptions).

Local Open Scope async_scope.
Local Open Scope string_scope.

(** [handleSnapshot] from its [await] on: it runs when the promise has
    settled, on the state the page has by then. *)
Definition handleSnapshot_resume (settled : Outcome MockFeedbackResponse)
  : Async State unit :=
  try_catch
    (feedback <- await settled ;;
     update (setCurrentFeedback (Some feedback)) ;;
     match comparison_result feedback with
     | Some result =>
         let newAccuracy :=
           Math_round (Double.mul (DanceAPI.combined_score result) 100) in
         update (setOverallAccuracy newAccuracy)
     | None => ret tt
     end ;;
     update (log (console_log "Feedback received:" [])))
    (fun error =>
       update (log (console_error "Error processing snapshot:" error))).

(** The whole handler when nothing else happens while it awaits. *)
Definition handleSnapshot (service : FeedbackService) (snapshot : string)
  : Async State unit :=
  fun s =>
    match handleSnapshot_issue snapshot s with
    | None => (Resolved tt, s)
    | Some (image, options) => handleSnapshot_resume (service image options) s
    end.

(** The [autoSnapshot] prop handed to the camera view: the snapshot
    timer of the view runs while it is true. *)
Definition autoSnapshot (s : State) : bool := hasStarted s && isCapturing s.

(** A running session, as the countdown leaves it. *)
Definition running : State :=
  fireTimers EnhancedPractice 4 (handleStart initial).

Definition sample_feedback : MockFeedbackResponse :=
  {| comparison_result :=
       Some {| DanceAPI.pose_score := 7 # 10;
               DanceAPI.motion_score := 4 # 5;
               DanceAPI.combined_score := 3 # 4;
               DanceAPI.best_match_idx := 12;
               DanceAPI.timing_offset := 0 |};
     live_feedback := Some "Keep your arms higher" |}.

(** The double that the literal 0.7949999999999999 denotes; its product
    with 100 is 79.5 as a double, a little more than the exact product. *)
Definition just_below_0795 : Q := 447545212969943 # 562949953421312.

(** A response of the service whose comparison result has the given
    combined score. *)
Definition result_with (score : Q) : DanceAPI.ComparisonResult :=
  {| DanceAPI.pose_score := 7 # 10;
     DanceAPI.motion_score := 4 # 5;
     DanceAPI.combined_score := score;
     DanceAPI.best_match_idx := 12;
     DanceAPI.timing_offset := 0 |}.

Definition feedback_with (score : Q) : MockFeedbackResponse :=
  {| comparison_result := Some (result_with score);
     live_feedback := None |}.

End PracticePage.

(** ** components/LiveFeedback.tsx *)

Module LiveFeedback.

Inductive MessageType := success | warning | tip.

Record FeedbackMessage := {
  id : Z;
  message : string;
  type : MessageType
}.

(** The array the interval callback draws from. *)
Definition messages : list (string * MessageType) :=
  [ ("🔥 Great posture!", success);
    ("✨ Perfect timing!", success);
    ("Keep your arms higher", tip);
    ("Sync with the beat", warning) ]%string.

Inductive TimerCallback :=
| IntervalTick                (* the callback of [setInterval(..., 4000)] *)
| RemoveMessage (newId : Z).  (* the callback of [setTimeout(..., 3000)] *)

Record State := mkState {
  feedbackMessages : list FeedbackMessage;
  messageId : Z;
  (** the [isPlaying] prop *)
  isPlaying : bool;
  (** the browser: current time, pending timers, next timer id *)
  clock : Z;
  timers : list (Timers.timer TimerCallback);
  nextTimerId : nat;
  (** the interval the cleanup of the last effect clears *)
  cleanup : option nat
}.

Definition setFeedbackMessages
  (f : list FeedbackMessage -> list FeedbackMessage) (s : State) : State :=
  mkState (f (feedbackMessages s)) (messageId s) (isPlaying s) (clock s)
    (timers s) (nextTimerId s) (cleanup s).

Definition setMessageId (v : Z) (s : State) : State :=
  mkState (feedbackMessages s) v (isPlaying s) (clock s)
    (timers s) (nextTimerId s) (cleanup s).

Definition setIsPlaying (v : bool) (s : State) : State :=
  mkState (feedbackMessages s) (messageId s) v (clock s)
    (timers s) (nextTimerId s) (cleanup s).

Definition setClock (v : Z) (s : State) : State :=
  mkState (feedbackMessages s) (messageId s) (isPlaying s) v
    (timers s) (nextTimerId s) (cleanup s).

Definition setTimers (v : list (Timers.timer TimerCallback)) (s : State)
  : State :=
  mkState (feedbackMessages s) (messageId s) (isPlaying s) (clock s)
    v (nextTimerId s) (cleanup s).

Definition setCleanup (v : option nat) (s : State) : State :=
  mkState (feedbackMessages s) (messageId s) (isPlaying s) (clock s)
    (timers s) (nextTimerId s) v.

(** [setTimeout] and [setInterval] register a timer due after the delay
    and return its id. *)
Definition setTimer (callback : TimerCallback) (delay : Z) (s : State)
  : nat * State :=
  (nextTimerId s,
   mkState (feedbackMessages s) (messageId s) (isPlaying s) (clock s)
     (timers s ++ [Timers.mkTimer (nextTimerId s) (clock s + delay) callback])
     (S (nextTimerId s)) (cleanup s)).

Definition clearInterval (interval : nat) (s : State) : State :=
  setTimers (Timers.clearTimer interval (timers s)) s.

(** The effect, with dependencies [isPlaying] and [messageId]. *)
Definition effect (s : State) : State :=
  if negb (isPlaying s) then setCleanup None s
  else
    let (interval, s') := setTimer IntervalTick 4000 s in
    setCleanup (Some interval) s'.

Definition runCleanup (s : State) : State :=
  match cleanup s with
  | Some interval => clearInterval interval s
  | None => s
  end.

(** A render in which a dependency changed: cleanup, then the effect. *)
Definition rerender (s : State) : State := effect (runCleanup s).

(** The component mounted with the given [isPlaying]: the [useState]
    initial values, and the effect has run once. *)
Definition mount (playing : bool) : State :=
  effect (mkState [] 0 playing 0 [] 0 None).

(** [messages[Math.floor(Math.random() * messages.length)]], for the
    value [random] that [Math.random()] returned. *)
Definition randomMessage (random : Q) : string * MessageType :=
  nth (Z.to_nat (Math_floor (random * inject_Z (Z.of_nat (List.length messages)))))
    messages (EmptyString, tip).

(** The body of the interval callback: a message arrives. *)
Definition intervalCallback (random : Q) (s : State) : State :=
  let newId := messageId s + 1 in
  let s := setMessageId newId s in
  let s :=
    setFeedbackMessages
      (fun prev => prev ++ [{| id := newId;
                               message := fst (randomMessage random);
                               type := snd (randomMessage random) |}]) s in
  snd (setTimer (RemoveMessage newId) 3000 s).

(** The callback and the render it causes ([messageId] has changed). *)
Definition arrive (random : Q) (s : State) : State :=
  rerender (intervalCallback random s).

(** The callback of the 3000 ms timeout. *)
Definition removeMessage (newId : Z) (s : State) : State :=
  setFeedbackMessages
    (filter (fun msg => negb (id msg =? newId))) s.

(** An interval stays registered when it fires; its next due time is one
    period later. *)
Definition rearm (t : Timers.timer TimerCallback) (period : Z)
    (l : list (Timers.timer TimerCallback)) :=
  map (fun u => if Nat.eqb (Timers.tid u) (Timers.tid t)
                then Timers.mkTimer (Timers.tid u) (Timers.due u + period)
                       (Timers.callback u)
                else u) l.

(** What happens to the component. *)
Inductive Event :=
| PropIsPlaying (at_time : Z) (playing : bool)
    (* the parent renders with this [isPlaying] *)
| TimerFires (random : Q).
    (* the next pending timer fires; [random] is what [Math.random()]
       returns if the callback draws a message *)

Definition overdue (at_time : Z) (s : State) : bool :=
  match Timers.earliest (timers s) with
  | Some t => Timers.due t <? at_time
  | None => false
  end.

(** One event; [None] when the event cannot happen in this state: time
    does not run backwards or past a pending timer, a timer fires only
    if one is pending, and [Math.random()] lies in [0, 1). *)
Definition step (e : Event) (s : State) : option State :=
  match e with
  | PropIsPlaying at_time playing =>
      if (at_time <? clock s) || overdue at_time s then None
      else
        let s := setClock at_time s in
        if Bool.eqb playing (isPlaying s) then Some s
        else Some (rerender (setIsPlaying playing s))
  | TimerFires random =>
      if negb (Qle_bool 0 random && negb (Qle_bool 1 random)) then None
      else
        match Timers.earliest (timers s) with
        | None => None
        | Some t =>
            let s := setClock (Z.max (clock s) (Timers.due t)) s in
            match Timers.callback t with
            | IntervalTick =>
                Some (arrive random (setTimers (rearm t 4000 (timers s)) s))
            | RemoveMessage newId =>
                Some (removeMessage newId
                        (setTimers
                           (Timers.clearTimer (Timers.tid t) (timers s)) s))
            end
        end
  end.

Fixpoint run (events : list Event) (s : State) : option State :=
  match events with
  | [] => Some s
  | e :: events' =>
      match step e s with
      | Some s' => run events' s'
      | None => None
      end
  end.

(** The states the component can be in between events: no message is
    shown, or one is, whose removal timeout is pending and is due before
    the next tick of the interval (if one is armed). *)
Inductive invariant : State -> Prop :=
| inv_idle mid cl nid :
    invariant (mkState [] mid false cl [] nid None)
| inv_waiting mid cl nid interval i :
    cl <= i -> (interval < nid)%nat ->
    invariant
      (mkState [] mid true cl [Timers.mkTimer interval i IntervalTick]
         nid (Some interval))
| inv_showing_paused msg mid cl nid timeout d :
    cl <= d <= cl + 3000 -> (timeout < nid)%nat ->
    invariant
      (mkState [msg] mid false cl
         [Timers.mkTimer timeout d (RemoveMessage (id msg))] nid None)
| inv_showing msg mid cl nid timeout d interval i :
    cl <= d <= cl + 3000 -> d < i ->
    (timeout < interval < nid)%nat ->
    invariant
      (mkState [msg] mid true cl
         [Timers.mkTimer timeout d (RemoveMessage (id msg));
          Timers.mkTimer interval i IntervalTick] nid (Some interval)).

End LiveFeedback.

(** ** The practice pages as the user drives them *)

Module PracticeUI.
Import PracticePage.

(** [onPlayPause={() => setIsPlaying(!isPlaying)}], the handler both the
    video player and the control bar receive. *)
Definition onPlayPause (s : State) : State :=
  setIsPlaying (negb (isPlaying s)) s.

(** What can happen to a mounted page: a click where the Start button
    is, the next pending timeout firing, a click on play/pause, and, on
    the enhanced page, a snapshot of the camera view whose request settles
    with the given outcome before anything else happens. *)
Inductive Event :=
| ClickStart
| TimeoutFires
| ClickPlayPause
| Snapshot (snapshot : string) (settled : Outcome MockFeedbackResponse).

Definition step (page : Page) (s : State) (e : Event) : State :=
  match e with
  | ClickStart => clickStart s
  | TimeoutFires => fireTimer page s
  | ClickPlayPause => onPlayPause s
  | Snapshot snapshot settled =>
      match page with
      | EnhancedPractice =>
          snd (handleSnapshot (fun _ _ => settled) snapshot s)
      | Practice => s
      end
  end.

Definition run (page : Page) (events : list Event) (s : State) : State :=
  fold_left (step page) events s.

(** The states a page is in between events. *)
Inductive reachable_shape (page : Page) : State -> Prop :=
| shape_idle ip cf oa ic co cl nid :
    reachable_shape page (mkState ip false None cf oa ic co cl [] nid None)
| shape_counting ip cf oa ic co cl nid timer d c :
    1 <= c <= 3 -> cl <= d ->
    reachable_shape page
      (mkState ip false (Some c) cf oa ic co cl
         [Timers.mkTimer timer d (Tick c)] nid (Some timer))
| shape_zero ip cf oa ic co cl nid timer d :
    cl <= d ->
    reachable_shape page
      (mkState ip false (Some 0) cf oa ic co cl
         [Timers.mkTimer timer d Launch] nid None)
| shape_running ip cf oa ic co cl nid :
    (page = EnhancedPractice -> ic = true) ->
    reachable_shape page (mkState ip true None cf oa ic co cl [] nid None).

(** The tip handed to [LiveFeedback]. *)
Record PracticeTip := {
  joint : string;
  message : string;
  beatIndex : Z
}.

(** [currentFeedback?.live_feedback ? {...} : undefined]: no tip for a
    missing feedback, a null text or the empty string. *)
Definition currentTip (s : State) (currentBeat : Z) : option PracticeTip :=
  match currentFeedback s with
  | None => None
  | Some feedback =>
      match live_feedback feedback with
      | None => None
      | Some text =>
          if String.eqb text EmptyString then None
          else Some {| joint := "General"; message := text;
                       beatIndex := currentBeat |}
      end
  end.

End PracticeUI.

(** ** The enhanced page with its snapshot requests in flight *)

Module PracticeAsync.
Import PracticePage.

(** The page, and the requests [handleSnapshot] has issued and is
    awaiting, oldest first. *)
Record Session := mkSession {
  page : State;
  inFlight : list (string * MockOptions)
}.

Definition initial : Session := mkSession PracticePage.initial [].

(** What can happen: the user's clicks and the timeouts as before; the
    camera view calls [onSnapshot], which runs [handleSnapshot] up to its
    [await]; the promise of the n-th request in flight settles, and the
    handler that awaits it resumes on the state the page has by then. *)
Inductive Event :=
| ClickStart
| TimeoutFires
| ClickPlayPause
| SnapshotTaken (snapshot : string)
| ResponseArrives (n : nat) (settled : Outcome MockFeedbackResponse).

Definition step (x : Session) (e : Event) : Session :=
  match e with
  | ClickStart => mkSession (clickStart (page x)) (inFlight x)
  | TimeoutFires =>
      mkSession (fireTimer EnhancedPractice (page x)) (inFlight x)
  | ClickPlayPause => mkSession (PracticeUI.onPlayPause (page x)) (inFlight x)
  | SnapshotTaken snapshot =>
      match handleSnapshot_issue snapshot (page x) with
      | None => x
      | Some request => mkSession (page x) (inFlight x ++ [request])
      end
  | ResponseArrives n settled =>
      match nth_error (inFlight x) n with
      | None => x
      | Some _ =>
          mkSession (snd (handleSnapshot_resume settled (page x)))
            (firstn n (inFlight x) ++ skipn (S n) (inFlight x))
      end
  end.

Definition run (events : list Event) : Session :=
  fold_left step events initial.




End PracticeAsync.

(** ** The beat timeline of the practice pages *)

Module Timeline.

(** Modelled from the spec: the types [Segment] and [Routine] of
    ../types and the list [mockRoutines] of ../data/mockData, files that
    are not part of the sources.  A segment is a named sub-range of a
    routine's beat timeline; the fields are the ones the pages read
    ([r.id], [routine.title], [routine.bpm], [routine.segments],
    [segment.id], [segment.name], [seg.beats]); the list of routines is a
    parameter of [findRoutine]. *)
Record Segment := { segment_id : string; name : string; beats : Z }.

Record Routine := {
  id : string;
  title : string;
  bpm : Q;
  segments : list Segment
}.

(** [mockRoutines.find((r) => r.id === routineId)]. *)
Definition findRoutine (mockRoutines : list Routine) (routineId : string)
  : option Routine :=
  find (fun r => String.eqb (id r) routineId) mockRoutines.

(** What a page renders: the "Routine not found" element when the lookup
    fails, and the page for the routine otherwise. *)
Inductive Rendered := RoutineNotFound | PageFor (routine : Routine).

Definition render (mockRoutines : list Routine) (routineId : string)
  : Rendered :=
  match findRoutine mockRoutines routineId with
  | None => RoutineNotFound
  | Some routine => PageFor routine
  end.

(** [routine.segments.reduce((acc, seg) => acc + seg.beats, 0)]. *)
Definition totalBeats (routine : Routine) : Z :=
  fold_left (fun acc seg => acc + beats seg) (segments routine) 0.

Definition errorRegions : list Z := [8; 9; 15; 23; 24].

(** The indices [Array.from({ length: totalBeats }).map((_, beatIdx) => ...)]
    runs over. *)
Definition beatTicks (total : Z) : list Z :=
  map Z.of_nat (seq 0 (Z.to_nat total)).

(** [beatIdx % 4 === 0]; the remainder has the sign of [beatIdx]. *)
Definition isStrongBeat (beatIdx : Z) : bool := Z.rem beatIdx 4 =? 0.

(** [errorRegions.includes(beatIdx)]. *)
Definition isErrorBeat (beatIdx : Z) : bool :=
  existsb (Z.eqb beatIdx) errorRegions.

(** The position of a tick, in percent: [(beatIdx / totalBeats) * 100]. *)
Definition position (total beatIdx : Z) : Q :=
  inject_Z beatIdx / inject_Z total * 100.

Inductive TickStyle := ErrorTick | StrongTick | WeakTick.

Definition tickStyle (beatIdx : Z) : TickStyle :=
  if isErrorBeat beatIdx then ErrorTick
  else if isStrongBeat beatIdx then StrongTick
  else WeakTick.

(** [Math.min] on two finite numbers. *)
Definition Math_min (x y : Q) : Q := if Qle_bool x y then x else y.

(** The playhead of the enhanced page:
    [Math.min((beatState.currentBeat / totalBeats) * 100, 100)]. *)
Definition playheadEnhanced (total currentBeat : Z) : Q :=
  Math_min (inject_Z currentBeat / inject_Z total * 100) 100.

(** The playhead of the first practice page:
    [(currentBeat / totalBeats) * 100]. *)
Definition playheadPractice (total currentBeat : Z) : Q :=
  inject_Z currentBeat / inject_Z total * 100.

End Timeline.

(** ** The accuracy badge of components/LiveFeedback.tsx *)

Module AccuracyBadge.

Local Open Scope string_scope.

(** [x >= y] on numbers. *)
Definition ge (x y : Q) : bool := Qle_bool y x.

Definition getAccuracyColor (overallAccuracy : Q) : string :=
  if ge overallAccuracy 80 then "text-green-400"
  else if ge overallAccuracy 60 then "text-yellow-400"
  else "text-red-400".

Definition getAccuracyLabel (overallAccuracy : Q) : string :=
  if ge overallAccuracy 90 then "Excellent!"
  else if ge overallAccuracy 80 then "Great!"
  else if ge overallAccuracy 70 then "Good"
  else if ge overallAccuracy 60 then "Keep going"
  else "Focus!".

(** The classes of the badge box. *)
Definition badgeClass (overallAccuracy : Q) : string :=
  if ge overallAccuracy 80 then "bg-green-500/10 border-green-500/50"
  else if ge overallAccuracy 60 then "bg-yellow-500/10 border-yellow-500/50"
  else "bg-red-500/10 border-red-500/50".

(** The icon at the bottom: the flame for [overallAccuracy >= 80], the
    grey check mark otherwise. *)
Inductive Icon := Flame | CheckCircle2.

Definition motivationalIcon (overallAccuracy : Q) : Icon :=
  if ge overallAccuracy 80 then Flame else CheckCircle2.

(** The number in the badge: [Math.round(overallAccuracy)]. *)
Definition shownPercent (overallAccuracy : Q) : Z :=
  Math_round overallAccuracy.

End AccuracyBadge.

(** ** The message list of LiveFeedback, operation by operation *)

Module LiveFeedbackOps.
Import LiveFeedback.

(** A message arrives (the interval callback runs) or the removal
    timeout of the message with the given id runs, in any order. *)
Inductive Op :=
| Arrive (random : Q)
| Expire (newId : Z).

Definition apply (s : State) (op : Op) : State :=
  match op with
  | Arrive random => arrive random s
  | Expire newId => removeMessage newId s
  end.

Definition applyAll (ops : list Op) (s : State) : State :=
  fold_left apply ops s.

Definition ids (s : State) : list Z := map id (feedbackMessages s).

(** Ids are pairwise distinct and none is above the counter. *)
Definition fresh (s : State) : Prop :=
  NoDup (ids s) /\ Forall (fun i => i <= messageId s) (ids s).

(** The removal timeout of a message is pending and due within 3000 ms. *)
Definition removal_pending (s : State) (msg : FeedbackMessage) : Prop :=
  exists t,
    In t (timers s) /\
    Timers.callback t = RemoveMessage (id msg) /\
    clock s <= Timers.due t <= clock s + 3000.

Definition interval_pending (s : State) : Prop :=
  exists t, In t (timers s) /\ Timers.callback t = IntervalTick.

End LiveFeedbackOps.

(** ** The session hook over a whole sequence of calls *)

Module SessionTrace.
Import useDanceSession.

(** The five functions the hook returns. *)
Inductive HookCall :=
| CallStart
| CallEnd
| CallProcessSnapshot (snapshot : string)
| CallLoadReferenceVideo (videoName : string)
| CallTestBackendConnection.

(** The state after a call has settled, against the network as it is
    during that call. *)
Definition perform (s : State) (c : DanceAPI.Fetch * HookCall) : State :=
  match c with
  | (fetch, CallStart) => snd (startDanceSession fetch s)
  | (fetch, CallEnd) => snd (endDanceSession fetch s)
  | (fetch, CallProcessSnapshot snapshot) =>
      snd (processSnapshot fetch snapshot s)
  | (fetch, CallLoadReferenceVideo videoName) =>
      snd (loadReferenceVideo fetch videoName s)
  | (fetch, CallTestBackendConnection) =>
      snd (testBackendConnection fetch s)
  end.

Definition performAll (calls : list (DanceAPI.Fetch * HookCall))
    (s : State) : State :=
  fold_left perform calls s.

(** A call that starts or ends the session and whose request succeeds. *)
Definition takesEffect (c : DanceAPI.Fetch * HookCall) : bool :=
  match c with
  | (fetch, CallStart) => negb (isRejected (DanceAPI.startSession fetch))
  | (fetch, CallEnd) => negb (isRejected (DanceAPI.endSession fetch))
  | _ => false
  end.

(** The two fields of the hook's state that its users read. *)
Definition session (s : State) : option string * bool :=
  (sessionId s, isSessionActive s).

End SessionTrace.

(** ** App.jsx *)

Module App.

Local Open Scope string_scope.

(** The parsed body, read as an object whose [message], when present, is
    a string. *)
Record Data := { message : option string }.

(** How a template literal prints a string or [undefined]. *)
Definition interpolate (v : option string) : string :=
  match v with Some text => text | None => "undefined" end.

Record State := { apiStatus : string }.

(** [useState('checking...')]. *)
Definition initial : State := {| apiStatus := "checking..." |}.

(** [import.meta.env.VITE_API_URL || 'http://localhost:8000']: the
    variable when it is set and not empty. *)
Definition backendUrl (VITE_API_URL : option string) : string :=
  match VITE_API_URL with
  | Some url => if String.eqb url "" then "http://localhost:8000" else url
  | None => "http://localhost:8000"
  end.

Definition setApiStatus (v : string) : Async State unit :=
  update (fun _ => {| apiStatus := v |}).

Local Open Scope async_scope.

Definition checkBackend (VITE_API_URL : option string)
    (fetch : string -> Outcome (DanceAPI.Response Data))
  : Async State unit :=
  try_catch
    (response <- await (fetch (backendUrl VITE_API_URL)) ;;
     data <- await (DanceAPI.json response) ;;
     setApiStatus ("Connected - " ++ interpolate (message data)))
    (fun error => setApiStatus "Backend not running").

End App.

(** ** pages/CalibrationPage.tsx *)

Module CalibrationPage.

Local Open Scope string_scope.

Record Item := { id : Z; label : string; completed : bool }.

Definition checklistItems : list Item :=
  [ {| id := 1; label := "Stand 6-8 feet back from camera";
       completed := false |};
    {| id := 2; label := "Full body visible in frame"; completed := false |};
    {| id := 3; label := "Good lighting (no backlight)";
       completed := false |};
    {| id := 4; label := "Clear background space"; completed := false |} ].

(** The callback of the 2000 ms timeout; it closes over the checklist
    of the render in which the button was clicked. *)
Inductive TimerCallback := FinishCalibration (checklist : list Item).

Record State := mkState {
  isCalibrating : bool;
  isComplete : bool;
  checklist : list Item;
  clock : Z;
  timers : list (Timers.timer TimerCallback);
  nextTimerId : nat
}.

Definition initial : State := mkState false false checklistItems 0 [] 0.

Definition handleCalibrate (s : State) : State :=
  mkState true (isComplete s) (checklist s) (clock s)
    (timers s ++ [Timers.mkTimer (nextTimerId s) (clock s + 2000)
                    (FinishCalibration (checklist s))])
    (S (nextTimerId s)).

Definition runCallback (cb : TimerCallback) (s : State) : State :=
  match cb with
  | FinishCalibration seen =>
      let updatedChecklist :=
        map (fun item => {| id := id item; label := label item;
                            completed := true |}) seen in
      mkState false true updatedChecklist (clock s) (timers s)
        (nextTimerId s)
  end.

Definition fireTimer (s : State) : State :=
  match Timers.earliest (timers s) with
  | None => s
  | Some t =>
      runCallback (Timers.callback t)
        (mkState (isCalibrating s) (isComplete s) (checklist s)
           (Z.max (clock s) (Timers.due t))
           (Timers.clearTimer (Timers.tid t) (timers s)) (nextTimerId s))
  end.

(** The buttons: "Start Calibration" is rendered while [!isComplete]
    and disabled while [isCalibrating]; "Begin Practice", which calls
    [onComplete], is rendered once [isComplete]. *)
Inductive Event := ClickCalibrate | TimeoutFires | ClickBeginPractice.

Definition calibrateEnabled (s : State) : bool :=
  negb (isComplete s) && negb (isCalibrating s).

Definition beginPracticeShown (s : State) : bool := isComplete s.

(** One event; the second component tells whether [onComplete] was
    called. *)
Definition step (s : State) (e : Event) : State * bool :=
  match e with
  | ClickCalibrate =>
      (if calibrateEnabled s then handleCalibrate s else s, false)
  | TimeoutFires => (fireTimer s, false)
  | ClickBeginPractice => (s, beginPracticeShown s)
  end.

(** The state after the events, and whether [onComplete] was called. *)
Definition run (events : list Event) (s : State) : State * bool :=
  fold_left (fun acc e => let (s', called) := step (fst acc) e in
                          (s', snd acc || called))
    events (s, false).

(** The states the page is in between events. *)
Inductive reachable_shape : State -> Prop :=
| shape_fresh cl nid :
    reachable_shape (mkState false false checklistItems cl [] nid)
| shape_calibrating cl nid timer d :
    cl <= d ->
    reachable_shape
      (mkState true false checklistItems cl
         [Timers.mkTimer timer d (FinishCalibration checklistItems)] nid)
| shape_complete cl nid :
    reachable_shape
      (mkState false true
         (map (fun item => {| id := id item; label := label item;
                              completed := true |}) checklistItems)
         cl [] nid).

End CalibrationPage.

(** ** pages/ReviewPage.tsx *)

Module ReviewPage.

Local Open Scope string_scope.

Record Grade := { letter : string; emoji : string; color : string }.

(** [x >= y] and [x < y] on numbers. *)
Definition ge (x y : Q) : bool := Qle_bool y x.
Definition lt (x y : Q) : bool := negb (Qle_bool y x).

Definition getGrade (score : Q) : Grade :=
  if ge score 90 then {| letter := "S"; emoji := "ðŸ’Ž"; color := "#00d3f3" |}
  else if ge score 80 then
    {| letter := "A"; emoji := "ðŸ”¥"; color := "#05df72" |}
  else if ge score 70 then
    {| letter := "B"; emoji := "ðŸ’«"; color := "#f9d949" |}
  else if ge score 60 then
    {| letter := "C"; emoji := "â­"; color := "#ff8904" |}
  else {| letter := "D"; emoji := "ðŸ’ª"; color := "#fb2c36" |}.

Definition getBarColor (accuracy : Q) : string :=
  if ge accuracy 80 then "#05df72"
  else if ge accuracy 60 then "#f9d949"
  else "#fb2c36".

Definition getBarOpacity (accuracy : Q) : Q :=
  if ge accuracy 80 then 1 # 4
  else if ge accuracy 60 then 1 # 4
  else 1 # 4.

(** The mock beat-by-beat performance data. *)
Definition beatPerformance : list Q :=
  [ 77; 88; 71; 89; 75; 73; 83; 88; 55; 54; 72; 97; 83; 80; 76; 77;
    77; 99; 98; 96; 81; 90; 94; 54; 69; 98; 97; 99; 72; 81; 77; 89;
    94; 96; 95; 76; 88; 71; 76; 73; 91; 81; 73; 79; 99; 83; 98; 71 ]%Q.

(** A bar of the chart: [height = (accuracy / 100) * 128], drawn from
    [top = 128 - height]; [isError = accuracy < 70] adds the glow and the
    "Error detected" line. *)
Definition barHeight (accuracy : Q) : Q := accuracy / 100 * 128.
Definition barTop (accuracy : Q) : Q := 128 - barHeight accuracy.
Definition isError (accuracy : Q) : bool := lt accuracy 70.

(** The place of a letter in the order D, C, B, A, S. *)
Definition rank (g : Grade) : Z :=
  if String.eqb (letter g) "S" then 4
  else if String.eqb (letter g) "A" then 3
  else if String.eqb (letter g) "B" then 2
  else if String.eqb (letter g) "C" then 1
  else 0.

(** [routine?.segments.find((s) => s.id === segmentId) || routine?.segments[0]]
    for an optional routine and an optional [segmentId]. *)
Definition segment (routine : option Timeline.Routine)
    (segmentId : option string) : option Timeline.Segment :=
  match routine with
  | None => None
  | Some r =>
      match find (fun s => match segmentId with
                           | Some wanted =>
                               String.eqb (Timeline.segment_id s) wanted
                           | None => false
                           end) (Timeline.segments r) with
      | Some s => Some s
      | None => hd_error (Timeline.segments r)
      end
  end.

End ReviewPage.

(** ** components/PracticeControlBar.tsx *)

Module PracticeControlBar.

(** The local state of the bar. *)
Record State := {
  loopCount : Z;
  speed : Q;
  showGhostSlider : bool
}.

(** [useState<8 | 16>(8)], [useState<number>(1)], [useState(false)]. *)
Definition initial : State :=
  {| loopCount := 8; speed := 1; showGhostSlider := false |}.

(** [speed === 1] on numbers. *)
Definition isOne (x : Q) : bool := Qeq_bool x 1.

Inductive Event :=
| ClickLoop8             (* () => setLoopCount(8) *)
| ClickLoop16            (* () => setLoopCount(16) *)
| ClickSpeed             (* () => setSpeed(speed === 1 ? 0.75 : 1) *)
| ClickGhost.            (* () => setShowGhostSlider(!showGhostSlider) *)

Definition step (s : State) (e : Event) : State :=
  match e with
  | ClickLoop8 =>
      {| loopCount := 8; speed := speed s;
         showGhostSlider := showGhostSlider s |}
  | ClickLoop16 =>
      {| loopCount := 16; speed := speed s;
         showGhostSlider := showGhostSlider s |}
  | ClickSpeed =>
      {| loopCount := loopCount s;
         speed := if isOne (speed s) then 3 # 4 else 1;
         showGhostSlider := showGhostSlider s |}
  | ClickGhost =>
      {| loopCount := loopCount s; speed := speed s;
         showGhostSlider := negb (showGhostSlider s) |}
  end.

Definition run (events : list Event) (s : State) : State :=
  fold_left step events s.

(** How often the speed button is among the events. *)
Definition speedClicks (events : list Event) : nat :=
  List.length
    (filter (fun e => match e with ClickSpeed => true | _ => false end)
       events).

End PracticeControlBar.

(** ** Properties of the beat clock *)

Lemma elapsedBeats_nonneg (t bpm : Q) :
  (0 <= t)%Q -> (0 < bpm)%Q -> (0 <= BeatClock.elapsedBeats t bpm)%Q.
Proof.
  intros Ht Hb. unfold BeatClock.elapsedBeats, Qdiv.
  apply Qmult_le_0_compat; [apply Qmult_le_0_compat|]; auto.
  - now apply Qlt_le_weak.
  - discriminate.
Qed.

Lemma Math_floor_nonneg (x : Q) : (0 <= x)%Q -> 0 <= Math_floor x.
Proof.
  intros Hx. change 0 with (Qfloor (inject_Z 0)).
  now apply Qfloor_resp_le.
Qed.

Lemma fraction_bounds (x : Q) :
  (0 <= x - inject_Z (Math_floor x))%Q /\ (x - inject_Z (Math_floor x) < 1)%Q.
Proof.
  unfold Math_floor. split.
  - unfold Qminus. rewrite <- Qle_minus_iff. apply Qfloor_le.
  - pose proof (Qlt_floor x) as H. rewrite inject_Z_plus in H.
    apply Qlt_minus_iff in H. apply Qlt_minus_iff.
    setoid_replace (1 + - (x - inject_Z (Qfloor x)))%Q
      with (inject_Z (Qfloor x) + inject_Z 1 + - x)%Q by ring.
    exact H.
Qed.

Lemma beat_clock_configured (t bpm : Q) (totalBeats : Z) :
  (0 < bpm)%Q -> 0 < totalBeats ->
  BeatClock.useVideoBeatSync t bpm totalBeats =
  inr {| BeatClock.currentBeat :=
           Z.min (Math_floor (BeatClock.elapsedBeats t bpm)) (totalBeats - 1);
         BeatClock.beatProgress :=
           BeatClock.elapsedBeats t bpm
           - inject_Z (Math_floor (BeatClock.elapsedBeats t bpm)) |}.
Proof.
  intros Hb Ht. unfold BeatClock.useVideoBeatSync.
  destruct (Qle_bool bpm 0) eqn:E.
  - apply Qle_bool_iff in E. exfalso. eapply Qlt_not_le; eauto.
  - destruct (totalBeats <=? 0) eqn:E'; [lia | reflexivity].
Qed.

(** C1: for elapsedTime >= 0, bpm > 0 and totalBeats > 0 the beat clock
    returns a BeatState (no configuration error) whose currentBeat lies in
    [0, totalBeats - 1] and whose beatProgress lies in [0, 1); the clamp
    keeps currentBeat at most totalBeats - 1 however far elapsedTime runs. *)
Theorem beat_state_in_range (elapsedTime bpm : Q) (totalBeats : Z) :
  (0 <= elapsedTime)%Q -> (0 < bpm)%Q -> 0 < totalBeats ->
  exists st,
    BeatClock.useVideoBeatSync elapsedTime bpm totalBeats = inr st /\
    0 <= BeatClock.currentBeat st <= totalBeats - 1 /\
    (0 <= BeatClock.beatProgress st)%Q /\ (BeatClock.beatProgress st < 1)%Q.
Proof.
  intros Ht Hb Hn. eexists. split; [now apply beat_clock_configured|].
  cbn [BeatClock.currentBeat BeatClock.beatProgress].
  pose proof (Math_floor_nonneg _ (elapsedBeats_nonneg _ _ Ht Hb)).
  split; [lia | apply fraction_bounds].
Qed.

Lemma beat_state_in_range_witness :
  exists st,
    BeatClock.useVideoBeatSync 100 120 32 = inr st /\
    0 <= BeatClock.currentBeat st <= 32 - 1 /\
    (0 <= BeatClock.beatProgress st)%Q /\ (BeatClock.beatProgress st < 1)%Q.
Proof.
  apply (beat_state_in_range 100 120 32).
  - discriminate.
  - reflexivity.
  - reflexivity.
Defined.

Lemma floor_unique (x : Q) (n : Z) :
  (inject_Z n <= x)%Q -> (x < inject_Z (n + 1))%Q -> Math_floor x = n.
Proof.
  intros Hlo Hhi. unfold Math_floor.
  assert (H1 : n <= Qfloor x).
  { rewrite <- (Qfloor_Z n). now apply Qfloor_resp_le. }
  assert (H2 : Qfloor x < n + 1).
  { rewrite Zlt_Qlt. eapply Qle_lt_trans; [apply Qfloor_le | exact Hhi]. }
  lia.
Qed.

(** C2: the beat clock computes its output by the reference definition.
    For bpm > 0 and totalBeats > 0 it returns a state, with elapsedBeats =
    elapsedTime * bpm / 60.  While the beat is within the track,
    floor(elapsedBeats) <= totalBeats - 1, the state is the reference state:
    currentBeat = floor(elapsedBeats), the one integer n with n <=
    elapsedBeats < n + 1, and beatProgress = elapsedBeats - currentBeat; it is
    the only way to split elapsedBeats into an integer and a fraction in
    [0, 1).  With the clamp of the same sentence, currentBeat is in general
    min(floor(elapsedBeats), totalBeats - 1) and beatProgress the fractional
    remainder.  At bpm = 120, totalBeats = 32, elapsedTime = 8 s the result is
    beat 16, progress 0. *)
Theorem beat_clock_reference (elapsedTime bpm : Q) (totalBeats : Z) :
  (0 < bpm)%Q -> 0 < totalBeats ->
  let elapsedBeats := BeatClock.elapsedBeats elapsedTime bpm in
  exists st,
    BeatClock.useVideoBeatSync elapsedTime bpm totalBeats = inr st /\
    (elapsedBeats * 60 == elapsedTime * bpm)%Q /\
    BeatClock.currentBeat st
      = Z.min (Math_floor elapsedBeats) (totalBeats - 1) /\
    (BeatClock.beatProgress st
       == elapsedBeats - inject_Z (Math_floor elapsedBeats))%Q /\
    (Math_floor elapsedBeats <= totalBeats - 1 ->
       st = BeatClock.reference elapsedTime bpm /\
       BeatClock.currentBeat st = Math_floor elapsedBeats /\
       (inject_Z (BeatClock.currentBeat st) <= elapsedBeats)%Q /\
       (elapsedBeats < inject_Z (BeatClock.currentBeat st + 1))%Q /\
       (BeatClock.beatProgress st
          == elapsedBeats - inject_Z (BeatClock.currentBeat st))%Q /\
       (forall (n : Z) (p : Q),
          (inject_Z n + p == elapsedBeats)%Q -> (0 <= p)%Q -> (p < 1)%Q ->
          BeatClock.currentBeat st = n /\
          (BeatClock.beatProgress st == p)%Q)) /\
    (exists st8,
       BeatClock.useVideoBeatSync 8 120 32 = inr st8 /\
       BeatClock.currentBeat st8 = 16 /\ (BeatClock.beatProgress st8 == 0)%Q).
Proof.
  intros Hb Hn eb. pose proof (beat_clock_configured elapsedTime _ _ Hb Hn) as E.
  eexists. split; [exact E|].
  cbn [BeatClock.currentBeat BeatClock.beatProgress]. fold eb.
  split; [|split; [|split; [|split]]].
  - subst eb. unfold BeatClock.elapsedBeats. field.
  - reflexivity.
  - reflexivity.
  - intros Hin. rewrite Z.min_l by exact Hin.
    split; [reflexivity|]. split; [reflexivity|].
    split; [apply Qfloor_le|]. split; [apply Qlt_floor|].
    split; [reflexivity|].
    intros n p Hsplit Hp0 Hp1.
    assert (Hfloor : Math_floor eb = n).
    { apply floor_unique; rewrite <- Hsplit.
      - lra.
      - rewrite inject_Z_plus. change (inject_Z 1) with 1%Q. lra. }
    rewrite Hfloor. split; [reflexivity|]. rewrite <- Hsplit. ring.
  - eexists. split; [reflexivity|]. split; reflexivity.
Qed.

Lemma beat_clock_reference_witness :
  exists st,
    BeatClock.useVideoBeatSync 8 120 32 = inr st /\
    BeatClock.currentBeat st = 16 /\ (BeatClock.beatProgress st == 0)%Q.
Proof.
  destruct (beat_clock_reference 8 120 32) as [st [E [_ [_ [_ [Hin _]]]]]].
  - reflexivity.
  - reflexivity.
  - exists st. split; [exact E|].
    destruct Hin as [_ [_ [_ [_ [_ Hsplit]]]]]; [vm_compute; discriminate|].
    apply (Hsplit 16 0%Q); [reflexivity | discriminate | reflexivity].
Defined.

(** ** Properties of the HTTP client *)

Lemma request_settles (fetch : DanceAPI.Fetch) T (endpoint : string)
    (options : DanceAPI.RequestInit) :
  DanceAPI.request (T := T) fetch endpoint options =
  match fetch T (DanceAPI.API_BASE_URL ++ endpoint)%string
              (DanceAPI.fetch_init options) with
  | Rejected e => Rejected e
  | Resolved response =>
      if DanceAPI.ok response then DanceAPI.json response
      else Rejected (mkError ("HTTP error! status: "
                              ++ String_of_int (DanceAPI.status response))%string)
  end.
Proof.
  unfold DanceAPI.request.
  destruct (fetch T _ _) as [response|e]; [|reflexivity].
  now destruct (DanceAPI.ok response).
Qed.

Lemma call_is_request (fetch : DanceAPI.Fetch) T (m : DanceAPI.Method T) :
  DanceAPI.call fetch m =
  DanceAPI.request fetch (DanceAPI.endpoint_of m) (DanceAPI.options_of m).
Proof. destruct m; reflexivity. Qed.

Lemma call_bad_status (fetch : DanceAPI.Fetch) T (m : DanceAPI.Method T)
    (response : DanceAPI.Response (DanceAPI.El T)) :
  DanceAPI.sent fetch m = Resolved response ->
  DanceAPI.ok response = false ->
  DanceAPI.call fetch m =
  Rejected (mkError ("HTTP error! status: "
                     ++ String_of_int (DanceAPI.status response))%string).
Proof.
  intros Hsent Hok. rewrite call_is_request, request_settles.
  unfold DanceAPI.sent in Hsent. now rewrite Hsent, Hok.
Qed.

(** C9, counterexample: a server that answers 200 with a body that is not
    JSON makes [testConnection] reject although the status is a success
    status, so rejection is not equivalent to a non-success status. *)
Lemma rejects_on_success_status : ~ DanceAPI.rejects_exactly_on_bad_status.
Proof.
  intros H.
  specialize (H DanceAPI.malformed_body _ DanceAPI.M_testConnection _ eq_refl).
  destruct H as [H _]. specialize (H eq_refl). discriminate H.
Qed.

(** C9, amended: once the server has answered, every DanceAPI method
    rejects with the error "HTTP error! status: <status>" whenever the status is not a
    success status (the failure is thrown, never swallowed), and on a success
    status it settles as [response.json()] does: it returns the parsed body,
    or rejects when the body cannot be parsed. *)
Theorem call_outcome (fetch : DanceAPI.Fetch) T (m : DanceAPI.Method T)
    (response : DanceAPI.Response (DanceAPI.El T)) :
  DanceAPI.sent fetch m = Resolved response ->
  (DanceAPI.ok response = false ->
     DanceAPI.call fetch m =
     Rejected (mkError ("HTTP error! status: "
                        ++ String_of_int (DanceAPI.status response))%string)) /\
  (DanceAPI.ok response = true ->
     DanceAPI.call fetch m = DanceAPI.json response) /\
  (forall body, DanceAPI.ok response = true ->
     DanceAPI.json response = Resolved body ->
     DanceAPI.call fetch m = Resolved body).
Proof.
  intros Hsent. split; [now apply call_bad_status|].
  rewrite call_is_request, request_settles.
  unfold DanceAPI.sent in Hsent. rewrite Hsent. split.
  - now intros ->.
  - now intros body -> ->.
Qed.

Lemma call_outcome_witness :
  DanceAPI.call DanceAPI.internal_server_error
    (DanceAPI.M_processSnapshot "data:image/jpeg;base64,AAAA") =
  Rejected (mkError "HTTP error! status: 500") /\
  DanceAPI.call (DanceAPI.session_server "s-1") DanceAPI.M_startSession =
  Resolved {| DanceAPI.session_id := "s-1"; DanceAPI.message := "ok" |}.
Proof.
  split.
  - apply (call_outcome DanceAPI.internal_server_error _
             (DanceAPI.M_processSnapshot "data:image/jpeg;base64,AAAA")
             _ eq_refl).
    reflexivity.
  - apply (call_outcome (DanceAPI.session_server "s-1") _
             DanceAPI.M_startSession _ eq_refl); reflexivity.
Defined.

(** ** Properties of the session hook *)

(** C10: when [startDanceSession] succeeds the hook resolves with the
    response, [sessionId] is the returned [session_id] and
    [isSessionActive] is true; when [endDanceSession] succeeds [sessionId]
    is null and [isSessionActive] is false; when either API call fails both
    fields keep their values and the same error is thrown to the caller. *)
Theorem session_state_follows_outcome (fetch : DanceAPI.Fetch)
    (s : useDanceSession.State) :
  (forall response,
     DanceAPI.startSession fetch = Resolved response ->
     fst (useDanceSession.startDanceSession fetch s) = Resolved response /\
     useDanceSession.sessionId (snd (useDanceSession.startDanceSession fetch s))
       = Some (DanceAPI.session_id response) /\
     useDanceSession.isSessionActive
       (snd (useDanceSession.startDanceSession fetch s)) = true) /\
  (forall response,
     DanceAPI.endSession fetch = Resolved response ->
     fst (useDanceSession.endDanceSession fetch s) = Resolved response /\
     useDanceSession.sessionId (snd (useDanceSession.endDanceSession fetch s))
       = None /\
     useDanceSession.isSessionActive
       (snd (useDanceSession.endDanceSession fetch s)) = false) /\
  (forall error,
     DanceAPI.startSession fetch = Rejected error ->
     fst (useDanceSession.startDanceSession fetch s) = Rejected error /\
     useDanceSession.sessionId (snd (useDanceSession.startDanceSession fetch s))
       = useDanceSession.sessionId s /\
     useDanceSession.isSessionActive
       (snd (useDanceSession.startDanceSession fetch s))
       = useDanceSession.isSessionActive s) /\
  (forall error,
     DanceAPI.endSession fetch = Rejected error ->
     fst (useDanceSession.endDanceSession fetch s) = Rejected error /\
     useDanceSession.sessionId (snd (useDanceSession.endDanceSession fetch s))
       = useDanceSession.sessionId s /\
     useDanceSession.isSessionActive
       (snd (useDanceSession.endDanceSession fetch s))
       = useDanceSession.isSessionActive s).
Proof.
  unfold useDanceSession.startDanceSession, useDanceSession.endDanceSession,
    try_catch, bind, await.
  repeat split; intros; rewrite H; reflexivity.
Qed.

Lemma session_state_follows_outcome_witness :
  useDanceSession.sessionId
    (snd (useDanceSession.startDanceSession (DanceAPI.session_server "s-1")
            useDanceSession.initial)) = Some "s-1"%string /\
  snd (useDanceSession.startDanceSession DanceAPI.internal_server_error
         useDanceSession.initial) =
  {| useDanceSession.sessionId := None;
     useDanceSession.isSessionActive := false;
     useDanceSession.console :=
       [console_error "Failed to start dance session:"
          (mkError "HTTP error! status: 500")] |}.
Proof.
  split.
  - destruct (session_state_follows_outcome (DanceAPI.session_server "s-1")
                useDanceSession.initial) as [Hstart _].
    apply (Hstart {| DanceAPI.session_id := "s-1"; DanceAPI.message := "ok" |}).
    reflexivity.
  - reflexivity.
Defined.

(** ** Properties of the practice pages: the countdown *)

Section Countdown.
Import PracticePage.

Variable page : Page.

(** Fields of the state that the countdown never touches. *)
Variables (cf : option MockFeedbackResponse) (oa : Z) (co : list LogEntry).

Lemma handleStart_idle ip hs ic cl nid :
  handleStart (mkState ip hs None cf oa ic co cl [] nid None) =
  mkState ip hs (Some 3) cf oa ic co cl
    [Timers.mkTimer nid (cl + 1000) (Tick 3)] (S nid) (Some nid).
Proof. reflexivity. Qed.

Lemma fire_tick ip hs ic cl nid id d c :
  cl <= d -> c <> 1 ->
  fireTimer page
    (mkState ip hs (Some c) cf oa ic co cl
       [Timers.mkTimer id d (Tick c)] nid (Some id)) =
  mkState ip hs (Some (c - 1)) cf oa ic co d
    [Timers.mkTimer nid (d + 1000) (Tick (c - 1))] (S nid) (Some nid).
Proof.
  intros Hd Hc. unfold fireTimer. cbn [timers Timers.earliest].
  cbn [Timers.callback Timers.tid Timers.due runCallback].
  unfold setCountdown, clearTimeout, setClock.
  cbn [countdown timers Timers.clearTimer filter Timers.tid same_countdown
       isPlaying hasStarted currentFeedback overallAccuracy isCapturing
       console clock nextTimerId cleanup].
  rewrite Nat.eqb_refl. cbn [negb].
  replace (c - 1 =? c) with false by (symmetry; apply Z.eqb_neq; lia).
  unfold storeCountdown, runCleanup, countdownEffect, clearTimeout.
  cbn [countdown timers Timers.clearTimer filter cleanup
       isPlaying hasStarted currentFeedback overallAccuracy isCapturing
       console clock nextTimerId].
  replace (c - 1 =? 0) with false by (symmetry; apply Z.eqb_neq; lia).
  rewrite Z.max_r by assumption. reflexivity.
Qed.

Lemma fire_last_tick ip hs ic cl nid id d :
  cl <= d ->
  fireTimer page
    (mkState ip hs (Some 1) cf oa ic co cl
       [Timers.mkTimer id d (Tick 1)] nid (Some id)) =
  mkState ip hs (Some 0) cf oa ic co d
    [Timers.mkTimer nid (d + 500) Launch] (S nid) None.
Proof.
  intros Hd. unfold fireTimer. cbn [timers Timers.earliest].
  cbn [Timers.callback Timers.tid Timers.due runCallback].
  unfold setCountdown, clearTimeout, setClock.
  cbn [countdown timers Timers.clearTimer filter Timers.tid same_countdown
       isPlaying hasStarted currentFeedback overallAccuracy isCapturing
       console clock nextTimerId cleanup].
  rewrite Nat.eqb_refl. cbn [negb].
  change (1 - 1 =? 1) with false. cbv iota.
  unfold storeCountdown, runCleanup, countdownEffect, clearTimeout.
  cbn [countdown timers Timers.clearTimer filter cleanup
       isPlaying hasStarted currentFeedback overallAccuracy isCapturing
       console clock nextTimerId].
  change (1 - 1 =? 0) with true. cbv iota.
  rewrite Z.max_r by assumption. reflexivity.
Qed.

Lemma fire_launch ip hs ic cl nid id d :
  cl <= d ->
  fireTimer page
    (mkState ip hs (Some 0) cf oa ic co cl
       [Timers.mkTimer id d Launch] nid None) =
  mkState true true None cf oa
    (match page with EnhancedPractice => true | Practice => ic end)
    co d [] nid None.
Proof.
  intros Hd. unfold fireTimer. cbn [timers Timers.earliest].
  cbn [Timers.callback Timers.tid Timers.due runCallback].
  unfold setCountdown, clearTimeout, setClock.
  cbn [countdown timers Timers.clearTimer filter Timers.tid same_countdown
       isPlaying hasStarted currentFeedback overallAccuracy isCapturing
       console clock nextTimerId cleanup].
  rewrite Nat.eqb_refl. cbn [negb].
  rewrite Z.max_r by assumption. destruct page; reflexivity.
Qed.

Lemma fire_nothing_pending (s : State) :
  timers s = [] -> fireTimer page s = s.
Proof. unfold fireTimer. now intros ->. Qed.

Lemma fireTimers_nothing_pending (n : nat) (s : State) :
  timers s = [] -> fireTimers page n s = s.
Proof.
  induction n as [|n IH]; intros H; [reflexivity|].
  cbn [fireTimers]. rewrite fire_nothing_pending by assumption. now apply IH.
Qed.

End Countdown.

(** C3: from Idle (no countdown, not started, no timeout pending),
    [handleStart] shows Countdown(3) and arms a one-second timeout; each
    timeout that fires, one second after the previous one, lowers the
    countdown by 1, through 2 and 1 to 0; at 0 a 500 ms timeout is armed, and
    when it fires, 3500 ms after the start, the countdown is cleared, the
    page has started and plays, no timeout remains, and on the enhanced page
    auto-capture has been started. *)
Theorem countdown_then_running (page : PracticePage.Page)
    (s : PracticePage.State) :
  PracticePage.phase s = PracticePage.Idle ->
  PracticePage.timers s = [] -> PracticePage.cleanup s = None ->
  let s3 := PracticePage.handleStart s in
  let s2 := PracticePage.fireTimer page s3 in
  let s1 := PracticePage.fireTimer page s2 in
  let s0 := PracticePage.fireTimer page s1 in
  let run := PracticePage.fireTimer page s0 in
  (PracticePage.phase s3 = PracticePage.Countdown 3 /\
   PracticePage.clock s3 = PracticePage.clock s /\
   map Timers.due (PracticePage.timers s3) = [PracticePage.clock s + 1000]) /\
  (PracticePage.phase s2 = PracticePage.Countdown 2 /\
   PracticePage.clock s2 = PracticePage.clock s + 1000 /\
   map Timers.due (PracticePage.timers s2) = [PracticePage.clock s + 2000]) /\
  (PracticePage.phase s1 = PracticePage.Countdown 1 /\
   PracticePage.clock s1 = PracticePage.clock s + 2000 /\
   map Timers.due (PracticePage.timers s1) = [PracticePage.clock s + 3000]) /\
  (PracticePage.phase s0 = PracticePage.Countdown 0 /\
   PracticePage.clock s0 = PracticePage.clock s + 3000 /\
   PracticePage.hasStarted s0 = false /\
   map Timers.due (PracticePage.timers s0) = [PracticePage.clock s + 3500]) /\
  (PracticePage.phase run = PracticePage.Running /\
   PracticePage.clock run = PracticePage.clock s + 3500 /\
   PracticePage.countdown run = None /\
   PracticePage.hasStarted run = true /\
   PracticePage.isPlaying run = true /\
   PracticePage.timers run = [] /\
   (page = PracticePage.EnhancedPractice ->
    PracticePage.isCapturing run = true /\
    PracticePage.autoSnapshot run = true)).
Proof.
  destruct s as [ip hs cd cf oa ic co cl ts nid cu].
  unfold PracticePage.phase.
  cbn [PracticePage.countdown PracticePage.hasStarted PracticePage.timers
       PracticePage.cleanup].
  intros Hidle -> ->.
  destruct cd as [n|]; [discriminate|].
  destruct hs; [discriminate|]. cbv zeta.
  rewrite handleStart_idle.
  rewrite fire_tick by lia. change (3 - 1) with 2.
  rewrite fire_tick by lia. change (2 - 1) with 1.
  rewrite fire_last_tick by lia.
  rewrite fire_launch by lia.
  cbn [PracticePage.countdown PracticePage.hasStarted PracticePage.timers
       PracticePage.clock PracticePage.isPlaying PracticePage.isCapturing
       PracticePage.autoSnapshot map Timers.due].
  repeat split; try reflexivity; try (f_equal; lia); try lia;
    subst page; reflexivity.
Qed.

Lemma countdown_then_running_witness :
  PracticePage.phase
    (PracticePage.fireTimers PracticePage.EnhancedPractice 4
       (PracticePage.handleStart PracticePage.initial)) = PracticePage.Running /\
  PracticePage.clock
    (PracticePage.fireTimers PracticePage.EnhancedPractice 4
       (PracticePage.handleStart PracticePage.initial)) = 3500.
Proof.
  pose proof (countdown_then_running PracticePage.EnhancedPractice
                PracticePage.initial eq_refl eq_refl eq_refl) as H.
  cbv zeta in H. destruct H as [_ [_ [_ [_ [Hphase [Hclock _]]]]]].
  split; [exact Hphase | exact Hclock].
Defined.

(** ** Properties of the practice pages: the Start button *)

Lemma phase_not_idle_hides_start (s : PracticePage.State) :
  PracticePage.phase s <> PracticePage.Idle ->
  PracticePage.startButtonShown s = false.
Proof.
  unfold PracticePage.phase, PracticePage.startButtonShown.
  destruct (PracticePage.countdown s).
  - intros _. apply andb_false_r.
  - destruct (PracticePage.hasStarted s); [reflexivity | congruence].
Qed.

(** ** Properties of the practice pages: the snapshot handler *)

Lemma handleSnapshot_started (service : PracticePage.FeedbackService)
    (snapshot : string) (s : PracticePage.State) :
  PracticePage.hasStarted s = true ->
  PracticePage.handleSnapshot service snapshot s =
  PracticePage.handleSnapshot_resume
    (service snapshot PracticePage.mockOptions) s.
Proof.
  intros H. unfold PracticePage.handleSnapshot, PracticePage.handleSnapshot_issue.
  now rewrite H.
Qed.

Lemma resume_resolved (feedback : PracticePage.MockFeedbackResponse)
    (s : PracticePage.State) :
  PracticePage.handleSnapshot_resume (Resolved feedback) s =
  (Resolved tt,
   PracticePage.log (console_log "Feedback received:" [])
     (match PracticePage.comparison_result feedback with
      | Some result =>
          PracticePage.setOverallAccuracy
            (Math_round (Double.mul (DanceAPI.combined_score result) 100))
            (PracticePage.setCurrentFeedback (Some feedback) s)
      | None => PracticePage.setCurrentFeedback (Some feedback) s
      end)).
Proof.
  unfold PracticePage.handleSnapshot_resume, try_catch, bind, await, update.
  now destruct (PracticePage.comparison_result feedback).
Qed.

Lemma resume_rejected (error : Error) (s : PracticePage.State) :
  PracticePage.handleSnapshot_resume (Rejected error) s =
  (Resolved tt,
   PracticePage.log (console_error "Error processing snapshot:" error) s).
Proof. reflexivity. Qed.

(** *** The rounded product stays within 0..100 *)

Lemma round_half_even_bounds (x : Q) :
  Qfloor x <= Double.round_half_even x <= Qfloor x + 1.
Proof.
  unfold Double.round_half_even.
  destruct (x - inject_Z (Qfloor x) ?= 1 # 2)%Q; [destruct (Z.even _)| |]; lia.
Qed.

Lemma round_half_even_nonneg (x : Q) :
  (0 <= x)%Q -> 0 <= Double.round_half_even x.
Proof.
  intros H. pose proof (round_half_even_bounds x).
  assert (0 <= Qfloor x)
    by (change 0 with (Qfloor 0); now apply Qfloor_resp_le).
  lia.
Qed.

Lemma round_half_even_le (x : Q) (n : Z) :
  (x <= inject_Z n)%Q -> Double.round_half_even x <= n.
Proof.
  intros H.
  assert (Hf : Qfloor x <= n).
  { rewrite <- (Qfloor_Z n). now apply Qfloor_resp_le. }
  destruct (Z.eq_dec (Qfloor x) n) as [E|E].
  - unfold Double.round_half_even. rewrite E.
    assert (Hlt : (x - inject_Z n ?= 1 # 2)%Q = Lt).
    { rewrite <- Qlt_alt. lra. }
    now rewrite Hlt.
  - pose proof (round_half_even_bounds x). lia.
Qed.

Lemma round_half_even_error (x : Q) :
  (x - (1 # 2) <= inject_Z (Double.round_half_even x))%Q /\
  (inject_Z (Double.round_half_even x) <= x + (1 # 2))%Q.
Proof.
  unfold Double.round_half_even.
  pose proof (Qfloor_le x) as Hlo. pose proof (Qlt_floor x) as Hhi.
  rewrite inject_Z_plus in Hhi. change (inject_Z 1) with 1%Q in Hhi.
  set (n := Qfloor x) in *.
  destruct (x - inject_Z n ?= 1 # 2)%Q eqn:E.
  - apply Qeq_alt in E.
    destruct (Z.even n); rewrite ?inject_Z_plus;
      change (inject_Z 1) with 1%Q; split; lra.
  - apply Qlt_alt in E. split; lra.
  - apply Qgt_alt in E. rewrite inject_Z_plus. change (inject_Z 1) with 1%Q.
    split; lra.
Qed.

Lemma log2floor_percent (q : Q) :
  (0 <= q)%Q -> (q <= 100)%Q -> Double.log2floor q <= 6.
Proof.
  intros H0 H100. unfold Double.log2floor.
  assert (Hn : Qnum q <= 128 * Zpos (Qden q)).
  { unfold Qle in H100. cbn in H100. lia. }
  assert (Hl : Z.log2 (Qnum q) <= 7 + Z.log2 (Zpos (Qden q))).
  { apply Z.log2_le_mono in Hn.
    replace (128 * Z.pos (Qden q)) with (Z.pos (Qden q) * 2 ^ 7) in Hn by lia.
    rewrite Z.log2_mul_pow2 in Hn by lia. lia. }
  set (k := Z.log2 (Qnum q) - Z.log2 (Z.pos (Qden q))) in *.
  destruct (Qle_bool (2 ^ k) q) eqn:E; [|lia].
  destruct (Z.eq_dec k 7) as [Ek|Ek]; [|lia].
  rewrite Ek in E. apply Qle_bool_iff in E.
  change (2 ^ 7)%Q with 128%Q in E. lra.
Qed.

Lemma exponent_percent (q : Q) :
  (0 <= q)%Q -> (q <= 100)%Q -> Double.exponent q <= -46.
Proof.
  intros H0 H100. unfold Double.exponent.
  replace (Qabs q) with q
    by (destruct q as [n d]; unfold Qle in H0; cbn in *;
        rewrite Z.abs_eq by lia; reflexivity).
  pose proof (log2floor_percent q H0 H100). lia.
Qed.

Lemma nearest_error (q : Q) :
  (0 <= q)%Q -> (q <= 100)%Q ->
  (q - (1 # 140737488355328) <= Double.nearest q)%Q /\
  (Double.nearest q <= q + (1 # 140737488355328))%Q.
Proof.
  intros H0 H100. unfold Double.nearest. rewrite Qred_correct.
  pose proof (exponent_percent q H0 H100) as He.
  set (e := Double.exponent q) in *.
  assert (Hp : (0 < 2 ^ e)%Q) by (apply Qpower_0_lt; reflexivity).
  assert (Hu : (2 ^ e <= 1 # 70368744177664)%Q).
  { change (1 # 70368744177664)%Q with (2 ^ (-46))%Q.
    apply Qpower_le_compat_l; [exact He | discriminate]. }
  destruct (round_half_even_error (q / 2 ^ e)) as [Hlo Hhi].
  set (m := inject_Z (Double.round_half_even (q / 2 ^ e))) in *.
  assert (Hq : (q == q / 2 ^ e * 2 ^ e)%Q).
  { field. apply Qnot_eq_sym, Qlt_not_eq, Hp. }
  set (x := (q / 2 ^ e)%Q) in *.
  set (u := (2 ^ e)%Q) in *.
  assert (H1 : ((x - (1 # 2)) * u <= m * u)%Q)
    by (apply Qmult_le_compat_r; [exact Hlo | lra]).
  assert (H2 : (m * u <= (x + (1 # 2)) * u)%Q)
    by (apply Qmult_le_compat_r; [exact Hhi | lra]).
  split; rewrite Hq at 1; nra.
Qed.

Lemma hundred_in_units (e : Z) :
  e <= 2 -> (100 / 2 ^ e == inject_Z (25 * 2 ^ (2 - e)))%Q.
Proof.
  intros He. rewrite inject_Z_mult, Zpower_Qpower by lia.
  change (inject_Z 2) with (2 : Q). change (inject_Z 25) with (25 : Q).
  unfold Z.sub. rewrite Qpower_plus by discriminate.
  rewrite Qpower_opp. change (2 ^ 2)%Q with (4 : Q).
  field. apply Qnot_eq_sym, Qlt_not_eq, Qpower_0_lt. reflexivity.
Qed.

Lemma nearest_percent (q : Q) :
  (0 <= q)%Q -> (q <= 100)%Q ->
  (0 <= Double.nearest q)%Q /\ (Double.nearest q <= 100)%Q.
Proof.
  intros H0 H100. unfold Double.nearest. rewrite Qred_correct.
  assert (He : Double.exponent q <= 2)
    by (pose proof (exponent_percent q H0 H100); lia).
  set (e := Double.exponent q) in *.
  assert (Hp : (0 < 2 ^ e)%Q) by (apply Qpower_0_lt; reflexivity).
  assert (Hq0 : (0 <= q / 2 ^ e)%Q).
  { apply Qle_shift_div_l; [exact Hp|]. lra. }
  assert (Hq1 : (q / 2 ^ e <= inject_Z (25 * 2 ^ (2 - e)))%Q).
  { rewrite <- hundred_in_units by exact He.
    apply Qle_shift_div_l; [exact Hp|].
    unfold Qdiv.
    rewrite <- Qmult_assoc, (Qmult_comm (/ _)), Qmult_inv_r, Qmult_1_r;
      [exact H100|]. apply Qnot_eq_sym, Qlt_not_eq, Hp. }
  pose proof (round_half_even_nonneg _ Hq0) as Hm0.
  pose proof (round_half_even_le _ _ Hq1) as Hm1.
  set (m := Double.round_half_even (q / 2 ^ e)) in *.
  split.
  - apply Qmult_le_0_compat; [|lra]. rewrite Zle_Qle in Hm0. exact Hm0.
  - apply Qle_trans with (inject_Z (25 * 2 ^ (2 - e)) * 2 ^ e)%Q.
    + apply Qmult_le_compat_r; [|lra]. rewrite <- Zle_Qle. exact Hm1.
    + rewrite <- hundred_in_units by exact He. apply Qle_lteq. right. field.
      apply Qnot_eq_sym, Qlt_not_eq, Hp.
Qed.

Lemma Math_round_within (x : Q) :
  (0 <= x)%Q -> (x <= 100)%Q -> 0 <= Math_round x <= 100.
Proof.
  intros H0 H1. unfold Math_round. split.
  - change 0 with (Qfloor (inject_Z 0)). apply Qfloor_resp_le.
    change (inject_Z 0) with 0%Q. lra.
  - apply Z.le_trans with (Qfloor (100 + (1 # 2)));
      [apply Qfloor_resp_le; lra | vm_compute; discriminate].
Qed.

Lemma Math_round_error (x : Q) :
  (x - (1 # 2) <= inject_Z (Math_round x))%Q /\
  (inject_Z (Math_round x) <= x + (1 # 2))%Q.
Proof.
  unfold Math_round.
  pose proof (Qfloor_le (x + (1 # 2))) as Hlo.
  pose proof (Qlt_floor (x + (1 # 2))) as Hhi.
  rewrite inject_Z_plus in Hhi. change (inject_Z 1) with 1%Q in Hhi.
  split; lra.
Qed.

Lemma percent_near_score (score : Q) :
  (0 <= score)%Q -> (score <= 1)%Q ->
  (score * 100 - (1 # 2) - (1 # 140737488355328)
   <= inject_Z (Math_round (Double.mul score 100)))%Q /\
  (inject_Z (Math_round (Double.mul score 100))
   <= score * 100 + (1 # 2) + (1 # 140737488355328))%Q.
Proof.
  intros H0 H1. unfold Double.mul.
  destruct (nearest_error (score * 100)) as [Hlo Hhi]; [lra | lra |].
  destruct (Math_round_error (Double.nearest (score * 100))) as [Rlo Rhi].
  split; lra.
Qed.

Lemma percent_of_exact_product (score : Q) :
  Double.representable (score * 100) ->
  Math_round (Double.mul score 100) = Math_round (score * 100).
Proof.
  unfold Double.representable, Double.mul, Math_round. intros H.
  apply Qfloor_comp. now rewrite H.
Qed.

Lemma percent_of_score (score : Q) :
  (0 <= score)%Q -> (score <= 1)%Q ->
  0 <= Math_round (Double.mul score 100) <= 100.
Proof.
  intros H0 H1. unfold Double.mul.
  destruct (nearest_percent (score * 100)) as [Hlo Hhi]; [lra | lra |].
  now apply Math_round_within.
Qed.

(** C5: when the handler ingests a result whose combinedScore lies in
    [0, 1], the accuracy it stores is round(combinedScore * 100), the product
    being the double the machine computes: the rounding of the exact product
    whenever that is a double, and in every case an integer within one half,
    and the rounding error 2^-47 of the product, of combinedScore * 100.
    The new value replaces the previous one without reading it (whatever the
    accuracy was before, the same value is stored: no averaging), and it is
    an integer between 0 and 100. *)
Theorem accuracy_is_rounded_score (service : PracticePage.FeedbackService)
    (snapshot : string) (s : PracticePage.State)
    (feedback : PracticePage.MockFeedbackResponse)
    (result : DanceAPI.ComparisonResult) :
  PracticePage.hasStarted s = true ->
  service snapshot PracticePage.mockOptions = Resolved feedback ->
  PracticePage.comparison_result feedback = Some result ->
  (0 <= DanceAPI.combined_score result)%Q ->
  (DanceAPI.combined_score result <= 1)%Q ->
  let s' := snd (PracticePage.handleSnapshot service snapshot s) in
  PracticePage.overallAccuracy s' =
    Math_round (Double.mul (DanceAPI.combined_score result) 100) /\
  0 <= PracticePage.overallAccuracy s' <= 100 /\
  PracticePage.currentFeedback s' = Some feedback /\
  (forall previous,
     PracticePage.overallAccuracy
       (snd (PracticePage.handleSnapshot service snapshot
               (PracticePage.setOverallAccuracy previous s)))
     = PracticePage.overallAccuracy s') /\
  (Double.representable (DanceAPI.combined_score result * 100) ->
   PracticePage.overallAccuracy s' =
     Math_round (DanceAPI.combined_score result * 100)) /\
  (DanceAPI.combined_score result * 100 - (1 # 2) - (1 # 140737488355328)
   <= inject_Z (PracticePage.overallAccuracy s'))%Q /\
  (inject_Z (PracticePage.overallAccuracy s')
   <= DanceAPI.combined_score result * 100 + (1 # 2)
      + (1 # 140737488355328))%Q.
Proof.
  intros Hs Hsvc Hres H0 H1 s'. subst s'.
  rewrite handleSnapshot_started, Hsvc, resume_resolved, Hres by assumption.
  cbn [snd PracticePage.overallAccuracy PracticePage.currentFeedback
       PracticePage.log PracticePage.setOverallAccuracy
       PracticePage.setCurrentFeedback].
  split; [reflexivity|]. split; [now apply percent_of_score|].
  split; [reflexivity|]. split.
  - intros previous.
    rewrite handleSnapshot_started, Hsvc, resume_resolved, Hres by exact Hs.
    reflexivity.
  - split; [apply percent_of_exact_product|].
    now apply percent_near_score.
Qed.

Lemma accuracy_is_rounded_score_witness :
  PracticePage.overallAccuracy
    (snd (PracticePage.handleSnapshot
            (fun _ _ =>
               Resolved
                 (PracticePage.feedback_with PracticePage.just_below_0795))
            "frame" PracticePage.running)) = 80.
Proof.
  destruct (accuracy_is_rounded_score
              (fun _ _ =>
                 Resolved
                   (PracticePage.feedback_with PracticePage.just_below_0795))
              "frame" PracticePage.running
              (PracticePage.feedback_with PracticePage.just_below_0795)
              (PracticePage.result_with PracticePage.just_below_0795)
              eq_refl eq_refl eq_refl)
    as [H _].
  - discriminate.
  - discriminate.
  - rewrite H. vm_compute. reflexivity.
Defined.

(** C6: a snapshot submission that fails leaves the feedback state as it
    was.  In the session hook a non-success answer (HTTP 500, say) makes
    [processSnapshot] log the error and throw it on to its caller, with the
    session fields untouched.  In the page's handler the rejection is caught:
    the handler settles normally, [console.error] records the error, and
    [currentFeedback], [overallAccuracy], the timers and the [autoSnapshot]
    flag that keeps the snapshot timer running are unchanged, so the next
    snapshot is handled as usual. *)
Theorem failed_snapshot_changes_nothing :
  (forall (fetch : DanceAPI.Fetch) (snapshot : string)
          (h : useDanceSession.State) response,
     DanceAPI.sent fetch (DanceAPI.M_processSnapshot snapshot)
       = Resolved response ->
     DanceAPI.ok response = false ->
     let error := mkError ("HTTP error! status: "
                           ++ String_of_int (DanceAPI.status response))%string in
     let r := useDanceSession.processSnapshot fetch snapshot h in
     fst r = Rejected error /\
     useDanceSession.sessionId (snd r) = useDanceSession.sessionId h /\
     useDanceSession.isSessionActive (snd r)
       = useDanceSession.isSessionActive h /\
     useDanceSession.console (snd r) =
       (useDanceSession.console h
        ++ [console_error "Failed to process snapshot:" error])%list) /\
  (forall (service : PracticePage.FeedbackService) (snapshot : string)
          (s : PracticePage.State) (error : Error),
     PracticePage.hasStarted s = true ->
     service snapshot PracticePage.mockOptions = Rejected error ->
     let r := PracticePage.handleSnapshot service snapshot s in
     fst r = Resolved tt /\
     snd r = PracticePage.log
               (console_error "Error processing snapshot:" error) s /\
     PracticePage.currentFeedback (snd r) = PracticePage.currentFeedback s /\
     PracticePage.overallAccuracy (snd r) = PracticePage.overallAccuracy s /\
     PracticePage.autoSnapshot (snd r) = PracticePage.autoSnapshot s /\
     PracticePage.timers (snd r) = PracticePage.timers s /\
     (forall next feedback,
        PracticePage.currentFeedback
          (snd (PracticePage.handleSnapshot
                  (fun _ _ => Resolved feedback) next (snd r)))
        = Some feedback)).
Proof.
  split.
  - intros fetch snapshot h response Hsent Hok error r.
    pose proof (call_bad_status fetch _ _ response Hsent Hok) as Hbad.
    cbn [DanceAPI.call] in Hbad.
    subst r. unfold useDanceSession.processSnapshot, try_catch, bind, await.
    rewrite Hbad. repeat split.
  - intros service snapshot s error Hs Hsvc r. subst r.
    rewrite handleSnapshot_started, Hsvc, resume_rejected by assumption.
    cbn [fst snd]. repeat split.
    intros next feedback.
    rewrite handleSnapshot_started, resume_resolved by exact Hs.
    now destruct (PracticePage.comparison_result feedback).
Qed.

Lemma failed_snapshot_changes_nothing_witness :
  fst (useDanceSession.processSnapshot DanceAPI.internal_server_error
         "frame" useDanceSession.initial)
    = Rejected (mkError "HTTP error! status: 500") /\
  PracticePage.overallAccuracy
    (snd (PracticePage.handleSnapshot
            (fun _ _ => Rejected (mkError "HTTP error! status: 500"))
            "frame" PracticePage.running)) = 82.
Proof.
  destruct failed_snapshot_changes_nothing as [Hhook Hpage]. split.
  - apply (Hhook DanceAPI.internal_server_error "frame"%string
             useDanceSession.initial _ eq_refl eq_refl).
  - destruct (Hpage (fun _ _ => Rejected (mkError "HTTP error! status: 500"))
                "frame"%string PracticePage.running
                (mkError "HTTP error! status: 500") eq_refl eq_refl)
      as [_ [_ [_ [Hacc _]]]].
    exact Hacc.
Defined.


(** ** Properties of the live feedback list *)

Section LiveFeedbackInvariant.
Import LiveFeedback.

Lemma mount_invariant (playing : bool) : invariant (mount playing).
Proof.
  destruct playing; vm_compute.
  - apply inv_waiting; lia.
  - apply inv_idle.
Qed.

Lemma eqb_lt_false (a b : nat) : (a < b)%nat -> Nat.eqb a b = false.
Proof. intros H. apply Nat.eqb_neq. lia. Qed.

Lemma eqb_gt_false (a b : nat) : (b < a)%nat -> Nat.eqb a b = false.
Proof. intros H. apply Nat.eqb_neq. lia. Qed.

Lemma ltb_false (a b : Z) : b <= a -> (a <? b) = false.
Proof. intros H. apply Z.ltb_ge. exact H. Qed.

Ltac state_simpl :=
  cbv beta iota zeta delta
    [step overdue arrive intervalCallback removeMessage rerender runCleanup
     effect clearInterval rearm setTimer setClock setIsPlaying setTimers
     setCleanup setFeedbackMessages setMessageId
     feedbackMessages messageId isPlaying clock timers nextTimerId cleanup
     Timers.earliest Timers.clearTimer Timers.due Timers.tid Timers.callback
     map filter app fst snd negb orb Bool.eqb].

Lemma prop_preserves_invariant at_time playing (s s' : State) :
  invariant s -> step (PropIsPlaying at_time playing) s = Some s' ->
  invariant s'.
Proof.
  intros Hinv. destruct Hinv; state_simpl;
    destruct (at_time <? cl) eqn:Hback; state_simpl; try discriminate;
    apply Z.ltb_ge in Hback.
  - destruct playing; state_simpl; intros [= <-].
    + apply inv_waiting; lia.
    + apply inv_idle.
  - destruct (i <? at_time) eqn:Hdue; try discriminate.
    apply Z.ltb_ge in Hdue.
    destruct playing; state_simpl; intros [= <-].
    + apply inv_waiting; lia.
    + rewrite Nat.eqb_refl. state_simpl. apply inv_idle.
  - destruct (d <? at_time) eqn:Hdue; try discriminate.
    apply Z.ltb_ge in Hdue.
    destruct playing; state_simpl; intros [= <-].
    + apply inv_showing; lia.
    + apply inv_showing_paused; lia.
  - rewrite (ltb_false i d) by lia.
    destruct (d <? at_time) eqn:Hdue; try discriminate.
    apply Z.ltb_ge in Hdue.
    destruct playing; state_simpl; intros [= <-].
    + apply inv_showing; lia.
    + rewrite Nat.eqb_refl, (eqb_lt_false timeout interval) by lia.
      state_simpl. apply inv_showing_paused; lia.
Qed.

Lemma timer_preserves_invariant random (s s' : State) :
  invariant s -> step (TimerFires random) s = Some s' -> invariant s'.
Proof.
  intros Hinv. unfold step.
  destruct (negb (Qle_bool 0 random && negb (Qle_bool 1 random)));
    [discriminate|].
  destruct Hinv; state_simpl.
  - discriminate.
  - intros [= <-]. rewrite Nat.eqb_refl. state_simpl.
    rewrite Nat.eqb_refl, (eqb_gt_false nid interval) by lia.
    state_simpl. rewrite Z.max_r by lia.
    match goal with
    | |- invariant (mkState [?m] _ _ _ _ _ _) =>
        change (mid + 1) with (id m) at 2
    end.
    apply inv_showing; lia.
  - intros [= <-]. rewrite Nat.eqb_refl. state_simpl.
    rewrite Z.eqb_refl. state_simpl. apply inv_idle.
  - rewrite (ltb_false i d) by lia.
    intros [= <-]. rewrite Nat.eqb_refl.
    rewrite (eqb_gt_false interval timeout) by lia.
    state_simpl. rewrite Z.eqb_refl. state_simpl. rewrite Z.max_r by lia.
    apply inv_waiting; lia.
Qed.

Lemma run_preserves_invariant (events : list Event) :
  forall s s', invariant s -> run events s = Some s' -> invariant s'.
Proof.
  induction events as [|e events IH]; intros s s' Hinv; cbn [run].
  - now intros [= <-].
  - destruct (step e s) as [s1|] eqn:Hstep; [|discriminate].
    apply IH. destruct e.
    + eapply prop_preserves_invariant; eassumption.
    + eapply timer_preserves_invariant; eassumption.
Qed.



End LiveFeedbackInvariant.

(** ** The practice pages under arbitrary user events *)

Section PracticeUIFacts.
Import PracticePage PracticeUI.

Lemma initial_shape page : reachable_shape page initial.
Proof. apply shape_idle. Qed.

Lemma resume_keeps_shape page s settled :
  reachable_shape page s ->
  reachable_shape page (snd (handleSnapshot_resume settled s)).
Proof.
  intros H. destruct settled as [feedback|error].
  - rewrite resume_resolved.
    destruct (comparison_result feedback); destruct H; cbn;
      now constructor.
  - rewrite resume_rejected. destruct H; cbn; now constructor.
Qed.

Lemma step_keeps_shape page s e :
  reachable_shape page s -> reachable_shape page (step page s e).
Proof.
  intros H. destruct e as [| | |snapshot settled]; cbn [step].
  - unfold clickStart, startButtonShown.
    destruct H; cbn [hasStarted countdown negb andb]; try now constructor.
    rewrite handleStart_idle. constructor; lia.
  - destruct H.
    + rewrite fire_nothing_pending by reflexivity. constructor.
    + destruct (Z.eq_dec c 1) as [->|Hc].
      * rewrite fire_last_tick by assumption. constructor; lia.
      * rewrite fire_tick by assumption. constructor; lia.
    + rewrite fire_launch by assumption. constructor.
      now intros ->.
    + rewrite fire_nothing_pending by reflexivity. now constructor.
  - destruct H; cbn; now constructor.
  - destruct page; [exact H|].
    unfold handleSnapshot.
    destruct (handleSnapshot_issue snapshot s) as [[image options]|];
      [|exact H].
    now apply resume_keeps_shape.
Qed.

Lemma run_keeps_shape page events :
  forall s, reachable_shape page s -> reachable_shape page (run page events s).
Proof.
  unfold run. induction events as [|e events IH]; intros s H; [exact H|].
  cbn [fold_left]. apply IH. now apply step_keeps_shape.
Qed.

Lemma step_keeps_running page s e :
  reachable_shape page s -> phase s = Running ->
  phase (step page s e) = Running /\
  autoSnapshot (step page s e) = autoSnapshot s.
Proof.
  intros H Hrun. destruct H; try discriminate Hrun.
  destruct e as [| | |snapshot settled]; cbn [step]; try (split; reflexivity).
  destruct page; [split; reflexivity|].
  unfold handleSnapshot. cbn [handleSnapshot_issue hasStarted negb].
  destruct settled as [feedback|error].
  - rewrite resume_resolved.
    destruct (comparison_result feedback); split; reflexivity.
  - rewrite resume_rejected. split; reflexivity.
Qed.

End PracticeUIFacts.

(** ** Starting twice *)

Lemma step_keeps_started (page : PracticePage.Page) (s : PracticePage.State)
    (e : PracticeUI.Event) :
  PracticeUI.reachable_shape page s ->
  PracticePage.phase s <> PracticePage.Idle ->
  PracticePage.phase (PracticeUI.step page s e) <> PracticePage.Idle.
Proof.
  intros H Hs. destruct H; try (now elim Hs).
  - destruct e as [| | |snapshot settled]; cbn [PracticeUI.step].
    + discriminate.
    + destruct (Z.eq_dec c 1) as [->|Hc].
      * rewrite fire_last_tick by assumption. discriminate.
      * rewrite fire_tick by assumption. discriminate.
    + discriminate.
    + destruct page; discriminate.
  - destruct e as [| | |snapshot settled]; cbn [PracticeUI.step].
    + discriminate.
    + rewrite fire_launch by assumption. discriminate.
    + discriminate.
    + destruct page; discriminate.
  - destruct (step_keeps_running page _ e
                (PracticeUI.shape_running page ip cf oa ic co cl nid H)
                eq_refl) as [Hr _].
    rewrite Hr. discriminate.
Qed.

Lemma run_keeps_started (page : PracticePage.Page)
    (events : list PracticeUI.Event) :
  forall s,
    PracticeUI.reachable_shape page s ->
    PracticePage.phase s <> PracticePage.Idle ->
    PracticePage.phase (PracticeUI.run page events s) <> PracticePage.Idle.
Proof.
  unfold PracticeUI.run.
  induction events as [|e events IH]; intros s H Hs; [exact Hs|].
  cbn [fold_left]. apply IH.
  - now apply step_keeps_shape.
  - now apply step_keeps_started.
Qed.

Lemma after_start_not_idle (page : PracticePage.Page) (n : nat) :
  PracticePage.phase
    (PracticePage.fireTimers page n
       (PracticePage.handleStart PracticePage.initial)) <> PracticePage.Idle.
Proof.
  do 4 (destruct n as [|n]; [destruct page; vm_compute; discriminate|]).
  change (S (S (S (S n)))) with (4 + n)%nat.
  assert (E : forall k s,
             PracticePage.fireTimers page (4 + k) s =
             PracticePage.fireTimers page k (PracticePage.fireTimers page 4 s))
    by reflexivity.
  rewrite E, fireTimers_nothing_pending;
    destruct page; vm_compute; congruence.
Qed.

Lemma click_leaves_idle (page : PracticePage.Page) (s : PracticePage.State) :
  PracticeUI.reachable_shape page s ->
  PracticePage.phase (PracticePage.clickStart s) <> PracticePage.Idle.
Proof.
  intros H. unfold PracticePage.clickStart, PracticePage.startButtonShown.
  destruct H; cbn [PracticePage.hasStarted PracticePage.countdown negb andb];
    discriminate.
Qed.

(** C4: start() is idempotent while the machine is in Countdown or
    Running.  start() is the click on the Start button, the only caller of
    [handleStart], and the button is rendered in Idle only.  In every state
    reached after a start, whatever clicks, snapshots and timeouts come
    before and after it, the page is not Idle, the button is not rendered and
    starting again changes nothing.  Two starts in quick succession leave the
    page exactly as one start does, now and for everything that follows:
    Countdown(3) with its single timeout, not restarted; [handleStart]
    itself, called while the countdown shows 3, changes nothing either. *)
Theorem start_twice (page : PracticePage.Page)
    (before events : list PracticeUI.Event) :
  let s := PracticeUI.run page (before ++ PracticeUI.ClickStart :: events)
             PracticePage.initial in
  (PracticePage.phase s <> PracticePage.Idle /\
   PracticePage.startButtonShown s = false /\
   PracticePage.clickStart s = s /\
   PracticeUI.run page
     (before ++ PracticeUI.ClickStart :: events ++ [PracticeUI.ClickStart])
     PracticePage.initial = s) /\
  (PracticeUI.run page [PracticeUI.ClickStart; PracticeUI.ClickStart]
     PracticePage.initial
   = PracticeUI.run page [PracticeUI.ClickStart] PracticePage.initial /\
   PracticePage.phase
     (PracticeUI.run page [PracticeUI.ClickStart; PracticeUI.ClickStart]
        PracticePage.initial) = PracticePage.Countdown 3 /\
   map Timers.due
     (PracticePage.timers
        (PracticeUI.run page [PracticeUI.ClickStart; PracticeUI.ClickStart]
           PracticePage.initial)) = [1000] /\
   (forall later,
      PracticeUI.run page
        (PracticeUI.ClickStart :: PracticeUI.ClickStart :: later)
        PracticePage.initial
      = PracticeUI.run page (PracticeUI.ClickStart :: later)
          PracticePage.initial)) /\
  (forall s0, PracticePage.countdown s0 = Some 3 ->
              PracticePage.handleStart s0 = s0) /\
  PracticePage.handleStart (PracticePage.handleStart PracticePage.initial) =
    PracticePage.handleStart PracticePage.initial /\
  (forall s0, PracticePage.phase s0 <> PracticePage.Idle ->
              PracticePage.clickStart s0 = s0) /\
  (forall n,
     let sn := PracticePage.fireTimers page n
                 (PracticePage.handleStart PracticePage.initial) in
     PracticePage.startButtonShown sn = false /\
     PracticePage.clickStart sn = sn).
Proof.
  intros s.
  assert (Hclick : forall s0, PracticePage.phase s0 <> PracticePage.Idle ->
                              PracticePage.clickStart s0 = s0).
  { intros s0 Hs. unfold PracticePage.clickStart.
    now rewrite phase_not_idle_hides_start. }
  assert (Hs : PracticePage.phase s <> PracticePage.Idle).
  { subst s. unfold PracticeUI.run. rewrite fold_left_app. cbn [fold_left].
    pose proof (run_keeps_shape page before _ (initial_shape page)) as Hb.
    unfold PracticeUI.run in Hb.
    apply (run_keeps_started page events).
    - now apply step_keeps_shape.
    - cbn [PracticeUI.step]. now apply (click_leaves_idle page). }
  split; [|split; [|split; [|split; [|split]]]].
  - split; [exact Hs|]. split; [now apply phase_not_idle_hides_start|].
    split; [now apply Hclick|].
    replace (before ++ PracticeUI.ClickStart :: events
             ++ [PracticeUI.ClickStart])
      with ((before ++ PracticeUI.ClickStart :: events)
            ++ [PracticeUI.ClickStart])
      by (rewrite <- app_assoc; reflexivity).
    unfold PracticeUI.run. rewrite (fold_left_app _ (before ++ _)).
    cbn [fold_left].
    fold (PracticeUI.run page (before ++ PracticeUI.ClickStart :: events)
            PracticePage.initial). fold s.
    cbn [PracticeUI.step]. now apply Hclick.
  - split; [reflexivity|]. split; [reflexivity|]. split; reflexivity.
  - intros s0 H0. unfold PracticePage.handleStart, PracticePage.setCountdown.
    now rewrite H0.
  - reflexivity.
  - exact Hclick.
  - intros n sn. pose proof (after_start_not_idle page n) as Hn. split.
    + now apply phase_not_idle_hides_start.
    + now apply Hclick.
Qed.

Lemma start_twice_witness :
  PracticeUI.run PracticePage.EnhancedPractice
    [PracticeUI.ClickPlayPause; PracticeUI.ClickStart;
     PracticeUI.TimeoutFires; PracticeUI.ClickStart] PracticePage.initial
  = PracticeUI.run PracticePage.EnhancedPractice
      [PracticeUI.ClickPlayPause; PracticeUI.ClickStart;
       PracticeUI.TimeoutFires] PracticePage.initial /\
  PracticePage.phase
    (PracticeUI.run PracticePage.EnhancedPractice
       [PracticeUI.ClickPlayPause; PracticeUI.ClickStart;
        PracticeUI.TimeoutFires; PracticeUI.ClickStart] PracticePage.initial)
  = PracticePage.Countdown 2.
Proof.
  pose proof (start_twice PracticePage.EnhancedPractice
                [PracticeUI.ClickPlayPause] [PracticeUI.TimeoutFires]) as H.
  cbv zeta in H. destruct H as [[_ [_ [_ H]]] _].
  split; [exact H | reflexivity].
Defined.

(** ** Responses and the scheduler *)

Section PracticeAsyncFacts.
Import PracticePage PracticeAsync.








End PracticeAsyncFacts.



(** X1: whatever the user does (clicks where the Start button is, play and
    pause, snapshots) and whenever timeouts fire, a practice page never has
    more than one timeout pending; it is Idle, in Countdown(n) with n from 3
    down to 0, or Running, and a timeout is pending exactly while a countdown
    is shown. *)
Theorem one_timeout_at_most (page : PracticePage.Page)
    (events : list PracticeUI.Event) :
  let s := PracticeUI.run page events PracticePage.initial in
  (List.length (PracticePage.timers s) <= 1)%nat /\
  (PracticePage.phase s = PracticePage.Idle \/
   PracticePage.phase s = PracticePage.Running \/
   exists n, 0 <= n <= 3 /\ PracticePage.phase s = PracticePage.Countdown n) /\
  (PracticePage.timers s = [] <-> PracticePage.countdown s = None).
Proof.
  intros s.
  assert (H : PracticeUI.reachable_shape page s)
    by (apply run_keeps_shape, initial_shape).
  destruct H; cbn; (split; [lia|]); split;
    try (left; reflexivity); try (right; left; reflexivity);
    try (right; right; eexists; split; [|reflexivity]; lia);
    split; intros; congruence.
Qed.

(** X2: the page has no way back from Running.  Once the countdown has
    launched the session, every later event leaves the page Running, and on
    the enhanced page the camera view keeps being told to take snapshots:
    nothing on the page stops the capture again. *)
Theorem running_is_absorbing (page : PracticePage.Page)
    (before after : list PracticeUI.Event) :
  PracticePage.phase (PracticeUI.run page before PracticePage.initial)
    = PracticePage.Running ->
  PracticePage.phase
    (PracticeUI.run page (before ++ after) PracticePage.initial)
    = PracticePage.Running /\
  (page = PracticePage.EnhancedPractice ->
   PracticePage.autoSnapshot
     (PracticeUI.run page (before ++ after) PracticePage.initial) = true).
Proof.
  unfold PracticeUI.run. rewrite fold_left_app.
  pose proof (run_keeps_shape page before _ (initial_shape page)) as Hshape.
  unfold PracticeUI.run in Hshape.
  generalize dependent (fold_left (PracticeUI.step page) before
                          PracticePage.initial).
  induction after as [|e after IH]; intros s Hshape Hrun; cbn [fold_left].
  - split; [exact Hrun|]. intros Hpage.
    destruct Hshape; try discriminate Hrun.
    cbn. now apply H.
  - destruct (step_keeps_running page s e Hshape Hrun) as [Hphase _].
    apply IH; [now apply step_keeps_shape | exact Hphase].
Qed.

Lemma running_is_absorbing_witness :
  PracticePage.phase
    (PracticeUI.run PracticePage.EnhancedPractice
       ([PracticeUI.ClickStart; PracticeUI.TimeoutFires;
         PracticeUI.TimeoutFires; PracticeUI.TimeoutFires;
         PracticeUI.TimeoutFires]
        ++ [PracticeUI.ClickPlayPause; PracticeUI.ClickStart;
            PracticeUI.Snapshot "frame" (Rejected (mkError "offline"));
            PracticeUI.TimeoutFires])
       PracticePage.initial) = PracticePage.Running.
Proof.
  apply (running_is_absorbing PracticePage.EnhancedPractice).
  reflexivity.
Defined.

(** X3: the tip the enhanced page shows is read off the latest response
    alone.  After a resolved snapshot the tip carries that response's
    live_feedback text under the joint "General" at the current beat, and
    there is no tip when the text is null or empty, whatever tip was shown
    before; a failed snapshot leaves the tip as it was. *)
Theorem tip_follows_latest_feedback (s : PracticePage.State)
    (snapshot : string) (currentBeat : Z) :
  PracticePage.hasStarted s = true ->
  (forall feedback,
     PracticeUI.currentTip
       (snd (PracticePage.handleSnapshot (fun _ _ => Resolved feedback)
               snapshot s)) currentBeat =
     match PracticePage.live_feedback feedback with
     | Some text =>
         if String.eqb text EmptyString then None
         else Some {| PracticeUI.joint := "General";
                      PracticeUI.message := text;
                      PracticeUI.beatIndex := currentBeat |}
     | None => None
     end) /\
  (forall error,
     PracticeUI.currentTip
       (snd (PracticePage.handleSnapshot (fun _ _ => Rejected error)
               snapshot s)) currentBeat =
     PracticeUI.currentTip s currentBeat).
Proof.
  intros Hs. split.
  - intros feedback. rewrite handleSnapshot_started, resume_resolved by exact Hs.
    unfold PracticeUI.currentTip.
    now destruct (PracticePage.comparison_result feedback).
  - intros error. rewrite handleSnapshot_started, resume_rejected by exact Hs.
    reflexivity.
Qed.

Lemma tip_follows_latest_feedback_witness :
  PracticeUI.currentTip
    (snd (PracticePage.handleSnapshot
            (fun _ _ => Resolved PracticePage.sample_feedback)
            "frame" PracticePage.running)) 16 =
  Some {| PracticeUI.joint := "General";
          PracticeUI.message := "Keep your arms higher";
          PracticeUI.beatIndex := 16 |}.
Proof.
  destruct (tip_follows_latest_feedback PracticePage.running "frame" 16
              eq_refl) as [H _].
  exact (H PracticePage.sample_feedback).
Defined.


(** ** The beat timeline *)

Section TimelineFacts.
Import Timeline.

Lemma position_as_fraction (p : positive) (b : Z) :
  (position (Zpos p) b == (b * 100) # p)%Q.
Proof. unfold position, Qeq. cbn. lia. Qed.

Lemma in_beatTicks (total b : Z) :
  In b (beatTicks total) <-> 0 <= b < total.
Proof.
  unfold beatTicks. rewrite in_map_iff. split.
  - intros [n [<- Hn]]. apply in_seq in Hn. lia.
  - intros Hb. exists (Z.to_nat b). split; [lia|]. apply in_seq. lia.
Qed.

Lemma find_first {A} (f : A -> bool) (l : list A) (x : A) :
  find f l = Some x ->
  exists l1 l2, l = l1 ++ x :: l2 /\ f x = true /\
                forall y, In y l1 -> f y = false.
Proof.
  induction l as [|a l IH]; cbn [find]; [discriminate|].
  destruct (f a) eqn:Ha.
  - intros [= <-]. exists [], l. repeat split; [exact Ha|]. intros y [].
  - intros H. destruct (IH H) as [l1 [l2 [-> [Hx Hl1]]]].
    exists (a :: l1), l2. repeat split; [exact Hx|].
    intros y [<-|Hy]; [exact Ha | now apply Hl1].
Qed.

End TimelineFacts.

(** X6: the timeline draws one tick per beat.  For totalBeats > 0 the
    ticks are the beats 0 to totalBeats - 1, each exactly once, and their
    positions lie in [0, 100) percent and grow with the beat. *)
Theorem ticks_cover_the_beats (total : Z) :
  0 < total ->
  List.length (Timeline.beatTicks total) = Z.to_nat total /\
  NoDup (Timeline.beatTicks total) /\
  (forall b, In b (Timeline.beatTicks total) <-> 0 <= b < total) /\
  (forall b, 0 <= b < total ->
     (0 <= Timeline.position total b)%Q /\
     (Timeline.position total b < 100)%Q) /\
  (forall b b', b < b' ->
     (Timeline.position total b < Timeline.position total b')%Q).
Proof.
  intros Ht. split; [|split; [|split; [|split]]].
  - unfold Timeline.beatTicks. now rewrite length_map, length_seq.
  - unfold Timeline.beatTicks. apply Finite.Injective_map_NoDup.
    + intros x y H. lia.
    + apply seq_NoDup.
  - intros b. apply in_beatTicks.
  - intros b Hb. destruct total as [|p|p]; try lia.
    rewrite !position_as_fraction. unfold Qle, Qlt. cbn. split; lia.
  - intros b b' Hb. destruct total as [|p|p]; try lia.
    rewrite !position_as_fraction. unfold Qlt. cbn. nia.
Qed.

Lemma ticks_cover_the_beats_witness :
  Timeline.beatTicks 4 = [0; 1; 2; 3] /\
  (Timeline.position 4 3 < 100)%Q.
Proof.
  split; [reflexivity|].
  destruct (ticks_cover_the_beats 4 eq_refl) as [_ [_ [_ [H _]]]].
  apply (H 3). lia.
Defined.

(** X7: the playhead of the enhanced page never leaves the timeline.  For
    totalBeats > 0 it is at most 100 percent for every current beat; while
    the beat is within 0..totalBeats it stands on that beat's tick position,
    beyond it stays at 100 percent.  The first practice page has no such
    clamp: past totalBeats its playhead lies beyond 100 percent. *)
Theorem playhead_stays_on_timeline (total currentBeat : Z) :
  0 < total ->
  (Timeline.playheadEnhanced total currentBeat <= 100)%Q /\
  (currentBeat <= total ->
   (Timeline.playheadEnhanced total currentBeat
    == Timeline.position total currentBeat)%Q) /\
  (total <= currentBeat ->
   (Timeline.playheadEnhanced total currentBeat == 100)%Q) /\
  (total < currentBeat ->
   (100 < Timeline.playheadPractice total currentBeat)%Q).
Proof.
  intros Ht. destruct total as [|p|p]; try lia.
  unfold Timeline.playheadEnhanced, Timeline.playheadPractice,
    Timeline.Math_min.
  change (inject_Z currentBeat / inject_Z (Z.pos p) * 100)%Q
    with (Timeline.position (Z.pos p) currentBeat).
  destruct (Qle_bool (Timeline.position (Z.pos p) currentBeat) 100) eqn:E.
  - apply Qle_bool_iff in E. split; [exact E|].
    split; [reflexivity|]. split.
    + intros Hc. apply Qle_antisym; [exact E|].
      rewrite position_as_fraction. unfold Qle. cbn. lia.
    + intros Hc. exfalso. rewrite position_as_fraction in E.
      unfold Qle in E. cbn in E. lia.
  - assert (Hgt : (100 < Timeline.position (Z.pos p) currentBeat)%Q).
    { apply Qnot_le_lt. intros H. apply Qle_bool_iff in H. congruence. }
    split; [apply Qle_refl|]. split; [|split].
    + intros Hc. exfalso. rewrite position_as_fraction in Hgt.
      unfold Qlt in Hgt. cbn in Hgt. lia.
    + reflexivity.
    + intros _. exact Hgt.
Qed.

Lemma playhead_stays_on_timeline_witness :
  (Timeline.playheadEnhanced 32 40 == 100)%Q /\
  (100 < Timeline.playheadPractice 32 40)%Q.
Proof.
  destruct (playhead_stays_on_timeline 32 40 eq_refl) as [_ [_ [H1 H2]]].
  split; [apply H1; lia | apply H2; lia].
Defined.

(** X8: a page renders "Routine not found" exactly when no routine of the
    list has the requested id; otherwise it renders the first routine of
    the list that has this id. *)
Theorem routine_lookup (mockRoutines : list Timeline.Routine)
    (routineId : string) :
  (Timeline.render mockRoutines routineId = Timeline.RoutineNotFound <->
   forall r, In r mockRoutines -> Timeline.id r <> routineId) /\
  (forall routine,
     Timeline.render mockRoutines routineId = Timeline.PageFor routine ->
     Timeline.id routine = routineId /\
     exists before after,
       mockRoutines = before ++ routine :: after /\
       forall r, In r before -> Timeline.id r <> routineId).
Proof.
  unfold Timeline.render, Timeline.findRoutine. split.
  - destruct (find _ mockRoutines) as [r|] eqn:E.
    + split; [discriminate|]. intros H. apply find_some in E.
      destruct E as [Hin Heq]. apply String.eqb_eq in Heq.
      now elim (H r Hin).
    + split; [|reflexivity]. intros _ r Hin Heq.
      pose proof (find_none _ _ E r Hin) as Hne. cbn in Hne.
      apply String.eqb_neq in Hne. contradiction.
  - intros routine. destruct (find _ mockRoutines) as [r|] eqn:E;
      [|discriminate].
    intros [= ->]. destruct (find_first _ _ _ E) as [l1 [l2 [-> [Hx Hl1]]]].
    apply String.eqb_eq in Hx. split; [exact Hx|].
    exists l1, l2. split; [reflexivity|].
    intros r Hr. apply String.eqb_neq. now apply Hl1.
Qed.

Lemma routine_lookup_witness :
  Timeline.render
    [ {| Timeline.id := "r1"; Timeline.title := "Demo"; Timeline.bpm := 120;
         Timeline.segments := [] |} ] "r2" = Timeline.RoutineNotFound.
Proof.
  destruct (routine_lookup
              [ {| Timeline.id := "r1"; Timeline.title := "Demo";
                   Timeline.bpm := 120; Timeline.segments := [] |} ]
              "r2") as [[_ H] _].
  apply H. intros r [<-|[]]. discriminate.
Defined.

(** ** The accuracy badge *)

Section AccuracyBadgeFacts.
Import AccuracyBadge.

Lemma ge_weaken (a : Q) (x y : Q) :
  (x <= y)%Q -> ge a y = true -> ge a x = true.
Proof.
  unfold ge. intros Hxy H. apply Qle_bool_iff in H. apply Qle_bool_iff.
  eapply Qle_trans; eassumption.
Qed.

Lemma Math_round_integer (z : Z) : Math_round (inject_Z z) = z.
Proof.
  unfold Math_round, Qfloor. cbn.
  replace (z * 2 + 1) with (1 + z * 2) by lia.
  rewrite Z.div_add by lia. reflexivity.
Qed.

Lemma ge_integer (z n : Z) : ge (inject_Z z) (inject_Z n) = (n <=? z).
Proof.
  unfold ge, Qle_bool. cbn. rewrite !Z.mul_1_r. reflexivity.
Qed.

End AccuracyBadgeFacts.

(** X9: the badge never contradicts itself.  For every accuracy the colour
    is green exactly when the label is "Excellent!" or "Great!", yellow
    exactly when it is "Good" or "Keep going", red exactly when it is
    "Focus!"; the box is tinted like the text and the flame is shown exactly
    with green. *)
Theorem badge_parts_agree (overallAccuracy : Q) :
  let colour := AccuracyBadge.getAccuracyColor overallAccuracy in
  let label := AccuracyBadge.getAccuracyLabel overallAccuracy in
  (colour = "text-green-400"%string <->
     label = "Excellent!"%string \/ label = "Great!"%string) /\
  (colour = "text-yellow-400"%string <->
     label = "Good"%string \/ label = "Keep going"%string) /\
  (colour = "text-red-400"%string <-> label = "Focus!"%string) /\
  (AccuracyBadge.motivationalIcon overallAccuracy = AccuracyBadge.Flame <->
     colour = "text-green-400"%string) /\
  (AccuracyBadge.badgeClass overallAccuracy
     = "bg-green-500/10 border-green-500/50"%string <->
     colour = "text-green-400"%string) /\
  (AccuracyBadge.badgeClass overallAccuracy
     = "bg-red-500/10 border-red-500/50"%string <->
     colour = "text-red-400"%string).
Proof.
  unfold AccuracyBadge.getAccuracyColor, AccuracyBadge.getAccuracyLabel,
    AccuracyBadge.motivationalIcon, AccuracyBadge.badgeClass.
  destruct (AccuracyBadge.ge overallAccuracy 90) eqn:E90.
  - rewrite (ge_weaken overallAccuracy 80 90) by (discriminate || assumption).
    cbv zeta. repeat split; intros; try discriminate; auto;
      intuition discriminate.
  - destruct (AccuracyBadge.ge overallAccuracy 80) eqn:E80.
    + cbv zeta. repeat split; intros; try discriminate; auto;
        intuition discriminate.
    + destruct (AccuracyBadge.ge overallAccuracy 70) eqn:E70.
      * rewrite (ge_weaken overallAccuracy 60 70)
          by (discriminate || assumption).
        cbv zeta. repeat split; intros; try discriminate; auto;
          intuition discriminate.
      * destruct (AccuracyBadge.ge overallAccuracy 60) eqn:E60;
          cbv zeta; repeat split; intros; try discriminate; auto;
          intuition discriminate.
Qed.

Lemma badge_of_integer (accuracy : Z) :
  AccuracyBadge.shownPercent (inject_Z accuracy) = accuracy /\
  (AccuracyBadge.getAccuracyColor (inject_Z accuracy)
     = "text-green-400"%string <-> 80 <= accuracy) /\
  (AccuracyBadge.getAccuracyColor (inject_Z accuracy)
     = "text-red-400"%string <-> accuracy < 60).
Proof.
  split; [apply Math_round_integer|].
  unfold AccuracyBadge.getAccuracyColor.
  change (80 : Q) with (inject_Z 80). change (60 : Q) with (inject_Z 60).
  rewrite !ge_integer.
  destruct (80 <=? accuracy) eqn:E80; destruct (60 <=? accuracy) eqn:E60;
    try apply Z.leb_le in E80; try apply Z.leb_gt in E80;
    try apply Z.leb_le in E60; try apply Z.leb_gt in E60;
    repeat split; intros; try discriminate; try lia; try reflexivity.
Qed.

Lemma floor_at_least (n : Z) (y : Q) :
  n <= Qfloor y <-> (inject_Z n <= y)%Q.
Proof.
  split.
  - intros H. apply Qle_trans with (inject_Z (Qfloor y)).
    + rewrite <- Zle_Qle. exact H.
    + apply Qfloor_le.
  - intros H. rewrite <- (Qfloor_Z n). now apply Qfloor_resp_le.
Qed.

Lemma round_at_least (n : Z) (x : Q) :
  n <= Math_round x <-> (inject_Z (2 * n - 1) / 2 <= x)%Q.
Proof.
  unfold Math_round. rewrite floor_at_least.
  destruct x as [a d]. unfold Qle. cbn -[Z.mul Z.add Z.sub]. lia.
Qed.

(** X10: what the badge shows after a snapshot.  When the enhanced page
    has handled a resolved snapshot that carries a comparison result, with p
    the product combined_score * 100 as the page computes it in double
    precision, the number in the badge is round(p) (rounding again in the
    badge changes nothing), the badge is green exactly when p is at least
    79.5 and red exactly when p is below 59.5. *)
Theorem badge_after_snapshot (service : PracticePage.FeedbackService)
    (snapshot : string) (s : PracticePage.State)
    (feedback : PracticePage.MockFeedbackResponse)
    (result : DanceAPI.ComparisonResult) :
  PracticePage.hasStarted s = true ->
  service snapshot PracticePage.mockOptions = Resolved feedback ->
  PracticePage.comparison_result feedback = Some result ->
  let accuracy :=
    inject_Z (PracticePage.overallAccuracy
                (snd (PracticePage.handleSnapshot service snapshot s))) in
  let p := Double.mul (DanceAPI.combined_score result) 100 in
  AccuracyBadge.shownPercent accuracy = Math_round p /\
  (AccuracyBadge.getAccuracyColor accuracy = "text-green-400"%string <->
     (159 # 2 <= p)%Q) /\
  (AccuracyBadge.getAccuracyColor accuracy = "text-red-400"%string <->
     (p < 119 # 2)%Q).
Proof.
  intros Hs Hsvc Hres accuracy p. subst accuracy.
  rewrite handleSnapshot_started, Hsvc, resume_resolved, Hres by assumption.
  cbn [snd PracticePage.overallAccuracy PracticePage.log
       PracticePage.setOverallAccuracy].
  fold p.
  destruct (badge_of_integer (Math_round p)) as [Hshown [Hgreen Hred]].
  split; [exact Hshown|]. split.
  - rewrite Hgreen, round_at_least. reflexivity.
  - rewrite Hred. rewrite Z.lt_nge, round_at_least.
    split; intros H.
    + apply Qnot_le_lt. exact H.
    + apply Qlt_not_le. exact H.
Qed.

Lemma badge_after_snapshot_witness :
  AccuracyBadge.shownPercent
    (inject_Z (PracticePage.overallAccuracy
                 (snd (PracticePage.handleSnapshot
                         (fun _ _ => Resolved
                            (PracticePage.feedback_with
                               PracticePage.just_below_0795))
                         "frame" PracticePage.running)))) = 80 /\
  AccuracyBadge.getAccuracyColor
    (inject_Z (PracticePage.overallAccuracy
                 (snd (PracticePage.handleSnapshot
                         (fun _ _ => Resolved
                            (PracticePage.feedback_with
                               PracticePage.just_below_0795))
                         "frame" PracticePage.running))))
  = "text-green-400"%string.
Proof.
  destruct (badge_after_snapshot
              (fun _ _ => Resolved
                 (PracticePage.feedback_with PracticePage.just_below_0795))
              "frame" PracticePage.running
              (PracticePage.feedback_with PracticePage.just_below_0795)
              (PracticePage.result_with PracticePage.just_below_0795)
              eq_refl eq_refl eq_refl)
    as [H [Hgreen _]].
  split; [exact H|]. apply Hgreen. vm_compute. discriminate.
Defined.

(** ** The message list, operation by operation *)

Section LiveFeedbackOpsFacts.
Import LiveFeedback LiveFeedbackOps.

Lemma arrive_ids random s :
  ids (arrive random s) = ids s ++ [messageId s + 1] /\
  messageId (arrive random s) = messageId s + 1.
Proof.
  unfold ids, arrive, rerender, effect, runCleanup, intervalCallback.
  cbn [setTimer snd setFeedbackMessages setMessageId feedbackMessages
       messageId cleanup isPlaying].
  destruct (cleanup s), (isPlaying s); cbn; rewrite map_app; split;
    reflexivity.
Qed.

Lemma remove_ids k s :
  ids (removeMessage k s) = filter (fun i => negb (i =? k)) (ids s) /\
  messageId (removeMessage k s) = messageId s.
Proof.
  unfold ids, removeMessage. cbn. split; [|reflexivity].
  induction (feedbackMessages s) as [|m l IH]; [reflexivity|].
  cbn [filter map]. destruct (id m =? k); cbn [negb map]; now rewrite IH.
Qed.

Lemma apply_keeps_fresh s op : fresh s -> fresh (apply s op).
Proof.
  unfold fresh. intros [Hnd Hle]. destruct op as [random|k]; cbn [apply].
  - destruct (arrive_ids random s) as [-> ->]. split.
    + apply (NoDup_Add (a := messageId s + 1) (l := ids s)).
      * rewrite <- (app_nil_r (ids s)) at 1. apply Add_app.
      * split; [exact Hnd|]. intros Hin.
        rewrite Forall_forall in Hle. specialize (Hle _ Hin). lia.
    + apply Forall_app. split.
      * eapply Forall_impl; [|exact Hle]. cbn. intros; lia.
      * constructor; [lia | constructor].
  - destruct (remove_ids k s) as [-> ->]. split.
    + now apply NoDup_filter.
    + rewrite Forall_forall in *. intros i Hi.
      apply filter_In in Hi. now apply Hle.
Qed.

Lemma applyAll_keeps_fresh ops :
  forall s, fresh s -> fresh (applyAll ops s).
Proof.
  unfold applyAll. induction ops as [|op ops IH]; intros s H; [exact H|].
  cbn [fold_left]. apply IH. now apply apply_keeps_fresh.
Qed.

Lemma mount_fresh playing : fresh (mount playing).
Proof. destruct playing; cbn; split; constructor. Qed.

Lemma remove_one (k : Z) (l : list FeedbackMessage) :
  NoDup (map id l) -> In k (map id l) ->
  S (List.length (filter (fun msg => negb (id msg =? k)) l)) = List.length l.
Proof.
  induction l as [|m l IH]; cbn [map filter List.length]; [intros _ []|].
  intros Hnd Hin. inversion Hnd as [|? ? Hnotin Hnd']; subst.
  destruct (id m =? k) eqn:E; cbn [negb List.length].
  - apply Z.eqb_eq in E. subst k. f_equal.
    clear IH Hin Hnd Hnd'. induction l as [|m' l IH]; [reflexivity|].
    cbn [filter map] in *.
    destruct (id m' =? id m) eqn:E'.
    + apply Z.eqb_eq in E'. exfalso. apply Hnotin. left. exact E'.
    + cbn [negb List.length]. f_equal. apply IH.
      intros H. apply Hnotin. now right.
  - f_equal. apply IH; [exact Hnd'|].
    destruct Hin as [Hm|Hin]; [|exact Hin].
    apply Z.eqb_neq in E. contradiction.
Qed.

End LiveFeedbackOpsFacts.

(** X11: message ids are never reused, so a removal timeout takes away
    its own message and nothing else.  After any sequence of arrivals and
    removals the ids in the list are pairwise distinct and none exceeds the
    counter messageId; the timeout of an id that is in the list shortens the
    list by exactly one, and keeps every message with another id. *)
Theorem removal_takes_its_own_message (playing : bool)
    (ops : list LiveFeedbackOps.Op) (newId : Z) :
  let s := LiveFeedbackOps.applyAll ops (LiveFeedback.mount playing) in
  NoDup (LiveFeedbackOps.ids s) /\
  Forall (fun i => i <= LiveFeedback.messageId s) (LiveFeedbackOps.ids s) /\
  (In newId (LiveFeedbackOps.ids s) ->
   S (List.length (LiveFeedback.feedbackMessages
                     (LiveFeedback.removeMessage newId s)))
   = List.length (LiveFeedback.feedbackMessages s)) /\
  (forall msg,
     In msg (LiveFeedback.feedbackMessages
               (LiveFeedback.removeMessage newId s)) <->
     In msg (LiveFeedback.feedbackMessages s) /\
     LiveFeedback.id msg <> newId).
Proof.
  intros s.
  destruct (applyAll_keeps_fresh ops _ (mount_fresh playing)) as [Hnd Hle].
  fold s in Hnd, Hle. split; [exact Hnd|]. split; [exact Hle|]. split.
  - intros Hin. now apply remove_one.
  - intros msg. unfold LiveFeedback.removeMessage. cbn.
    rewrite filter_In, negb_true_iff, Z.eqb_neq. reflexivity.
Qed.

Lemma removal_takes_its_own_message_witness :
  map LiveFeedback.id
    (LiveFeedback.feedbackMessages
       (LiveFeedback.removeMessage 2
          (LiveFeedbackOps.applyAll
             [LiveFeedbackOps.Arrive 0; LiveFeedbackOps.Arrive (1 # 2);
              LiveFeedbackOps.Arrive (3 # 4)]
             (LiveFeedback.mount true)))) = [1; 3] /\
  S (List.length
       (LiveFeedback.feedbackMessages
          (LiveFeedback.removeMessage 2
             (LiveFeedbackOps.applyAll
                [LiveFeedbackOps.Arrive 0; LiveFeedbackOps.Arrive (1 # 2);
                 LiveFeedbackOps.Arrive (3 # 4)]
                (LiveFeedback.mount true))))) = 3%nat.
Proof.
  split; [reflexivity|].
  destruct (removal_takes_its_own_message true
              [LiveFeedbackOps.Arrive 0; LiveFeedbackOps.Arrive (1 # 2);
               LiveFeedbackOps.Arrive (3 # 4)] 2) as [_ [_ [H _]]].
  apply H. vm_compute. auto.
Defined.

Section LiveFeedbackTimedFacts.
Import LiveFeedback LiveFeedbackOps.

Ltac unfold_step :=
  cbv beta iota zeta delta
    [step overdue arrive intervalCallback removeMessage rerender runCleanup
     effect clearInterval rearm setTimer setClock setIsPlaying setTimers
     setCleanup setFeedbackMessages setMessageId
     feedbackMessages messageId isPlaying clock timers nextTimerId cleanup
     Timers.earliest Timers.clearTimer Timers.due Timers.tid Timers.callback
     map filter app fst snd negb orb Bool.eqb].

Lemma invariant_removal_pending s msg :
  invariant s -> In msg (feedbackMessages s) -> removal_pending s msg.
Proof.
  intros H. destruct H; cbn [feedbackMessages In]; intros Hin;
    try contradiction; destruct Hin as [<-|Hin]; try contradiction;
    eexists; (split; [left; reflexivity|]); cbn; (split; [reflexivity|lia]).
Qed.

Lemma invariant_paused_no_interval s :
  invariant s -> isPlaying s = false -> ~ interval_pending s.
Proof.
  intros H. destruct H; cbn [isPlaying]; intros Hp; try discriminate Hp;
    intros [t [Hin Hcb]]; cbn in Hin.
  - destruct Hin.
  - destruct Hin as [<-|[]]. discriminate Hcb.
Qed.

Lemma invariant_next_timer_removes s random s' :
  invariant s -> feedbackMessages s <> [] ->
  step (TimerFires random) s = Some s' -> feedbackMessages s' = [].
Proof.
  intros H. unfold step.
  destruct (negb (Qle_bool 0 random && negb (Qle_bool 1 random)));
    [discriminate|].
  destruct H; unfold_step; intros Hne; try congruence.
  - intros [= <-]. rewrite Z.eqb_refl. reflexivity.
  - rewrite (ltb_false i d) by lia. intros [= <-].
    rewrite Z.eqb_refl. reflexivity.
Qed.

End LiveFeedbackTimedFacts.

(** X12: a message is on screen for three seconds at most and is gone
    before the next one arrives.  In every state the component reaches with
    timers firing at their due times, each message in the list has its
    removal timeout pending and due within 3000 ms; whenever a message is
    shown, the next timer to fire is that removal and it empties the list;
    and while isPlaying is false no interval is armed, so no message
    arrives. *)
Theorem message_leaves_before_the_next (playing : bool)
    (events : list LiveFeedback.Event) (s : LiveFeedback.State) :
  LiveFeedback.run events (LiveFeedback.mount playing) = Some s ->
  (forall msg, In msg (LiveFeedback.feedbackMessages s) ->
               LiveFeedbackOps.removal_pending s msg) /\
  (LiveFeedback.feedbackMessages s <> [] ->
   forall random s',
     LiveFeedback.step (LiveFeedback.TimerFires random) s = Some s' ->
     LiveFeedback.feedbackMessages s' = []) /\
  (LiveFeedback.isPlaying s = false -> ~ LiveFeedbackOps.interval_pending s).
Proof.
  intros Hrun.
  assert (Hinv : LiveFeedback.invariant s)
    by (eapply run_preserves_invariant; [apply mount_invariant | exact Hrun]).
  split; [|split].
  - intros msg. now apply invariant_removal_pending.
  - intros Hne random s'. now apply invariant_next_timer_removes.
  - now apply invariant_paused_no_interval.
Qed.

Lemma message_leaves_before_the_next_witness :
  exists s,
    LiveFeedback.run [LiveFeedback.TimerFires 0] (LiveFeedback.mount true)
      = Some s /\
    (forall msg, In msg (LiveFeedback.feedbackMessages s) ->
                 LiveFeedbackOps.removal_pending s msg).
Proof.
  destruct (LiveFeedback.run [LiveFeedback.TimerFires 0]
              (LiveFeedback.mount true)) as [s|] eqn:E.
  - exists s. split; [reflexivity|].
    apply (message_leaves_before_the_next true
             [LiveFeedback.TimerFires 0] s E).
  - vm_compute in E. discriminate E.
Defined.



(** ** The session hook over sequences of calls *)

Section SessionTraceFacts.
Import useDanceSession SessionTrace.

Lemma read_calls_keep_session fetch c s :
  takesEffect (fetch, c) = false ->
  session (perform s (fetch, c)) = session s.
Proof.
  unfold perform, takesEffect, startDanceSession, endDanceSession,
    processSnapshot, loadReferenceVideo, testBackendConnection,
    try_catch, bind, await.
  destruct c as [| |snapshot|videoName|].
  - destruct (DanceAPI.startSession fetch); [discriminate | reflexivity].
  - destruct (DanceAPI.endSession fetch); [discriminate | reflexivity].
  - intros _. now destruct (DanceAPI.processSnapshot fetch snapshot).
  - intros _. now destruct (DanceAPI.loadReferenceVideo fetch videoName).
  - intros _. now destruct (DanceAPI.testConnection fetch).
Qed.

Lemma session_decides_effect fetch c s s' :
  takesEffect (fetch, c) = true -> session s = session s' ->
  session (perform s (fetch, c)) = session (perform s' (fetch, c)).
Proof.
  unfold perform, takesEffect, startDanceSession, endDanceSession,
    try_catch, bind, await.
  destruct c as [| |snapshot|videoName|]; try discriminate.
  - destruct (DanceAPI.startSession fetch); [reflexivity | discriminate].
  - destruct (DanceAPI.endSession fetch); [reflexivity | discriminate].
Qed.

Lemma perform_keeps_coherence s c :
  (sessionId s = None <-> isSessionActive s = false) ->
  (sessionId (perform s c) = None <->
   isSessionActive (perform s c) = false).
Proof.
  destruct c as [fetch c]. intros H.
  destruct (takesEffect (fetch, c)) eqn:E.
  - revert E. unfold perform, takesEffect, startDanceSession,
      endDanceSession, try_catch, bind, await.
    destruct c as [| |snapshot|videoName|]; try discriminate.
    + destruct (DanceAPI.startSession fetch); [|discriminate].
      intros _. cbn. split; discriminate.
    + destruct (DanceAPI.endSession fetch); [|discriminate].
      intros _. cbn. split; reflexivity.
  - pose proof (read_calls_keep_session fetch c s E) as Hs.
    pose proof (f_equal fst Hs) as H1. pose proof (f_equal snd Hs) as H2.
    unfold session in H1, H2. cbn [fst snd] in H1, H2.
    rewrite H1, H2. exact H.
Qed.

End SessionTraceFacts.

(** X13: the hook hands outcomes through unchanged.  Each of its five
    functions settles exactly as the DanceAPI call it wraps (the same value,
    or the same error thrown on), and [processSnapshot],
    [loadReferenceVideo] and [testBackendConnection] never touch sessionId or
    isSessionActive, whether they succeed or fail. *)
Theorem hook_passes_outcomes_through (fetch : DanceAPI.Fetch)
    (s : useDanceSession.State) (snapshot videoName : string) :
  fst (useDanceSession.startDanceSession fetch s)
    = DanceAPI.startSession fetch /\
  fst (useDanceSession.endDanceSession fetch s) = DanceAPI.endSession fetch /\
  fst (useDanceSession.processSnapshot fetch snapshot s)
    = DanceAPI.processSnapshot fetch snapshot /\
  fst (useDanceSession.loadReferenceVideo fetch videoName s)
    = DanceAPI.loadReferenceVideo fetch videoName /\
  fst (useDanceSession.testBackendConnection fetch s)
    = DanceAPI.testConnection fetch /\
  SessionTrace.session (snd (useDanceSession.processSnapshot fetch snapshot s))
    = SessionTrace.session s /\
  SessionTrace.session
    (snd (useDanceSession.loadReferenceVideo fetch videoName s))
    = SessionTrace.session s /\
  SessionTrace.session (snd (useDanceSession.testBackendConnection fetch s))
    = SessionTrace.session s.
Proof.
  unfold useDanceSession.startDanceSession, useDanceSession.endDanceSession,
    useDanceSession.processSnapshot, useDanceSession.loadReferenceVideo,
    useDanceSession.testBackendConnection, try_catch, bind, await.
  destruct (DanceAPI.startSession fetch), (DanceAPI.endSession fetch),
    (DanceAPI.processSnapshot fetch snapshot),
    (DanceAPI.loadReferenceVideo fetch videoName),
    (DanceAPI.testConnection fetch); repeat split.
Qed.

(** X14: only successful start and end calls leave a trace in the session.
    After any sequence of hook calls, each against whatever the network does
    at that moment, sessionId and isSessionActive are what the successful
    start and end calls alone would have produced: failed calls and the three
    other functions can be dropped from the history.  Starting from the
    initial state, sessionId is null exactly when isSessionActive is false. *)
Theorem session_follows_successful_calls
    (calls : list (DanceAPI.Fetch * SessionTrace.HookCall))
    (s : useDanceSession.State) :
  SessionTrace.session (SessionTrace.performAll calls s)
    = SessionTrace.session
        (SessionTrace.performAll (filter SessionTrace.takesEffect calls) s) /\
  (useDanceSession.sessionId
     (SessionTrace.performAll calls useDanceSession.initial) = None <->
   useDanceSession.isSessionActive
     (SessionTrace.performAll calls useDanceSession.initial) = false).
Proof.
  split.
  - unfold SessionTrace.performAll.
    assert (H : forall s s', SessionTrace.session s = SessionTrace.session s' ->
              SessionTrace.session (fold_left SessionTrace.perform calls s) =
              SessionTrace.session
                (fold_left SessionTrace.perform
                   (filter SessionTrace.takesEffect calls) s')).
    { induction calls as [|[fetch c] calls IH]; intros s1 s2 Hs;
        cbn [fold_left filter]; [exact Hs|].
      destruct (SessionTrace.takesEffect (fetch, c)) eqn:E.
      - cbn [fold_left]. apply IH. now apply session_decides_effect.
      - apply IH. now rewrite read_calls_keep_session. }
    now apply H.
  - unfold SessionTrace.performAll.
    assert (H : forall s0,
              (useDanceSession.sessionId s0 = None <->
               useDanceSession.isSessionActive s0 = false) ->
              (useDanceSession.sessionId
                 (fold_left SessionTrace.perform calls s0) = None <->
               useDanceSession.isSessionActive
                 (fold_left SessionTrace.perform calls s0) = false)).
    { induction calls as [|c calls IH]; intros s0 H0; cbn [fold_left];
        [exact H0|].
      apply IH. now apply perform_keeps_coherence. }
    apply H. cbn. split; reflexivity.
Qed.

(** ** The error a failed request carries *)

Lemma String_of_int_injective (a b : Z) :
  String_of_int a = String_of_int b -> a = b.
Proof.
  unfold String_of_int. intros H.
  apply (f_equal NilEmpty.int_of_string) in H.
  rewrite !NilEmpty.isi in H. injection H as H.
  rewrite <- (DecimalZ.of_to a), <- (DecimalZ.of_to b). now rewrite H.
Qed.

(** X15: the error of a failed request tells the status.  When two
    requests, of any methods, are answered with non-success statuses, both
    reject, and their error messages are equal exactly when the two statuses
    are equal: a caller can tell a 404 from a 500 by the message alone. *)
Theorem http_error_names_the_status (fetch fetch' : DanceAPI.Fetch)
    T (m : DanceAPI.Method T) T' (m' : DanceAPI.Method T')
    (response : DanceAPI.Response (DanceAPI.El T))
    (response' : DanceAPI.Response (DanceAPI.El T')) :
  DanceAPI.sent fetch m = Resolved response ->
  DanceAPI.sent fetch' m' = Resolved response' ->
  DanceAPI.ok response = false -> DanceAPI.ok response' = false ->
  exists error error',
    DanceAPI.call fetch m = Rejected error /\
    DanceAPI.call fetch' m' = Rejected error' /\
    (Js.message error = Js.message error' <->
     DanceAPI.status response = DanceAPI.status response').
Proof.
  intros Hsent Hsent' Hok Hok'.
  rewrite (call_bad_status fetch T m response Hsent Hok).
  rewrite (call_bad_status fetch' T' m' response' Hsent' Hok').
  eexists. eexists. split; [reflexivity|]. split; [reflexivity|].
  cbn [Js.message]. split.
  - intros H. cbn in H. injection H as H. now apply String_of_int_injective.
  - now intros ->.
Qed.

Lemma http_error_names_the_status_witness :
  DanceAPI.call DanceAPI.internal_server_error DanceAPI.M_getConfig
    = Rejected (mkError "HTTP error! status: 500").
Proof.
  destruct (http_error_names_the_status
              DanceAPI.internal_server_error DanceAPI.internal_server_error
              _ DanceAPI.M_getConfig _ DanceAPI.M_testConnection
              _ _ eq_refl eq_refl eq_refl eq_refl)
    as [error [error' [H _]]].
  rewrite H. vm_compute in H. injection H as <-. reflexivity.
Defined.

(** ** The backend check of App.jsx *)

Lemma checkBackend_cases (env : option string)
    (fetch : string -> Outcome (DanceAPI.Response App.Data)) (s : App.State) :
  App.apiStatus (snd (App.checkBackend env fetch s)) =
  match fetch (App.backendUrl env) with
  | Rejected _ => "Backend not running"%string
  | Resolved response =>
      match DanceAPI.json response with
      | Rejected _ => "Backend not running"%string
      | Resolved data =>
          ("Connected - " ++ App.interpolate (App.message data))%string
      end
  end.
Proof.
  unfold App.checkBackend, try_catch, bind, await.
  destruct (fetch (App.backendUrl env)) as [response|e]; [|reflexivity].
  now destruct (DanceAPI.json response).
Qed.

(** X16: the backend check of the start screen does not look at the HTTP
    status.  It asks the URL of VITE_API_URL, or http://localhost:8000 when
    that variable is unset or empty; it reports "Backend not running" exactly
    when the request fails or the body is not JSON, and otherwise
    "Connected - <message>", also for a 500 answer with a JSON body, with the
    word "undefined" for a body that has no message. *)
Theorem checkBackend_ignores_status (env : option string)
    (fetch : string -> Outcome (DanceAPI.Response App.Data)) (s : App.State) :
  let status := App.apiStatus (snd (App.checkBackend env fetch s)) in
  (status = "Backend not running"%string <->
   (exists error, fetch (App.backendUrl env) = Rejected error) \/
   (exists response error,
      fetch (App.backendUrl env) = Resolved response /\
      DanceAPI.json response = Rejected error)) /\
  (forall response data,
     fetch (App.backendUrl env) = Resolved response ->
     DanceAPI.json response = Resolved data ->
     status = ("Connected - " ++ App.interpolate (App.message data))%string) /\
  (App.backendUrl env = "http://localhost:8000"%string \/
   env = Some (App.backendUrl env) /\ App.backendUrl env <> ""%string) /\
  (env = None \/ env = Some ""%string ->
   App.backendUrl env = "http://localhost:8000"%string) /\
  (forall url, env = Some url -> url <> ""%string ->
               App.backendUrl env = url) /\
  (forall fetch',
     fetch' (App.backendUrl env) = fetch (App.backendUrl env) ->
     App.apiStatus (snd (App.checkBackend env fetch' s)) = status).
Proof.
  intros status. subst status. rewrite checkBackend_cases.
  split; [|split; [|split; [|split; [|split]]]].
  - destruct (fetch (App.backendUrl env)) as [response|e].
    + destruct (DanceAPI.json response) as [data|e] eqn:Ej.
      * split; [discriminate|].
        intros [[error H]|[r [error [H1 H2]]]]; [discriminate|].
        injection H1 as <-. congruence.
      * split; [|reflexivity]. intros _. right. now exists response, e.
    + split; [|reflexivity]. intros _. left. now exists e.
  - now intros response data -> ->.
  - unfold App.backendUrl. destruct env as [url|]; [|now left].
    destruct (String.eqb url "") eqn:E; [now left|].
    right. split; [reflexivity|]. now apply String.eqb_neq.
  - intros [->| ->]; reflexivity.
  - intros url -> Hurl. unfold App.backendUrl.
    apply String.eqb_neq in Hurl. now rewrite Hurl.
  - intros fetch' Hsame. rewrite checkBackend_cases, Hsame. reflexivity.
Qed.

Lemma checkBackend_ignores_status_witness :
  App.apiStatus
    (snd (App.checkBackend None
            (fun _ => Resolved {| DanceAPI.status := 500;
                                  DanceAPI.json :=
                                    Resolved {| App.message := None |} |})
            App.initial)) = "Connected - undefined"%string /\
  App.backendUrl (Some "http://10.0.0.5:8000"%string)
  = "http://10.0.0.5:8000"%string.
Proof.
  split.
  - destruct (checkBackend_ignores_status None
                (fun _ => Resolved {| DanceAPI.status := 500;
                                      DanceAPI.json :=
                                        Resolved {| App.message := None |} |})
                App.initial) as [_ [H _]].
    exact (H _ _ eq_refl eq_refl).
  - destruct (checkBackend_ignores_status
                (Some "http://10.0.0.5:8000"%string)
                (fun _ => Rejected (mkError "Failed to fetch"))
                App.initial) as [_ [_ [_ [_ [H _]]]]].
    apply (H _ eq_refl). discriminate.
Defined.

(** ** The calibration page *)

Section CalibrationFacts.
Import CalibrationPage.

Lemma calibration_step_shape s e :
  reachable_shape s ->
  reachable_shape (fst (step s e)) /\
  (snd (step s e) = true -> isComplete s = true).
Proof.
  intros H. destruct e; cbn [step fst snd].
  - split; [|discriminate]. destruct H; cbn; try constructor; lia.
  - split; [|discriminate]. destruct H; cbn.
    + constructor.
    + rewrite Nat.eqb_refl. cbn. constructor.
    + constructor.
  - split; [exact H|]. intros Hc. exact Hc.
Qed.

Lemma calibration_complete_stays s e :
  reachable_shape s -> isComplete s = true ->
  isComplete (fst (step s e)) = true.
Proof.
  intros H Hc. destruct H; try discriminate Hc.
  destruct e; reflexivity.
Qed.

Lemma calibration_run_shape events :
  forall s called,
    reachable_shape s -> (called = true -> isComplete s = true) ->
    let r := fold_left (fun acc e => let (s', c) := step (fst acc) e in
                                     (s', snd acc || c))
               events (s, called) in
    reachable_shape (fst r) /\ (snd r = true -> isComplete (fst r) = true).
Proof.
  induction events as [|e events IH]; intros s called Hs Hc;
    cbn [fold_left fst snd]; [now split|].
  destruct (step s e) as [s' c] eqn:E.
  destruct (calibration_step_shape s e Hs) as [Hs' Hc'].
  rewrite E in Hs', Hc'. cbn [fst snd] in Hs', Hc'.
  apply IH; [exact Hs'|].
  intros H. apply orb_true_iff in H. destruct H as [H|H].
  - pose proof (calibration_complete_stays s e Hs (Hc H)) as Hk.
    now rewrite E in Hk.
  - pose proof (calibration_complete_stays s e Hs (Hc' H)) as Hk.
    now rewrite E in Hk.
Qed.

End CalibrationFacts.

(** X17: practice cannot begin before calibration has finished.  Whatever
    the user clicks and whenever the timeout fires, at most one calibration
    timeout is pending, the checklist keeps its four items and labels, the
    page is complete exactly when every item is ticked, and if onComplete
    (Begin Practice) was called the page is complete with every item
    ticked. *)
Theorem begin_practice_needs_calibration
    (events : list CalibrationPage.Event) :
  let s := fst (CalibrationPage.run events CalibrationPage.initial) in
  let called := snd (CalibrationPage.run events CalibrationPage.initial) in
  (List.length (CalibrationPage.timers s) <= 1)%nat /\
  map CalibrationPage.label (CalibrationPage.checklist s)
    = map CalibrationPage.label CalibrationPage.checklistItems /\
  (CalibrationPage.isComplete s = true <->
   forallb CalibrationPage.completed (CalibrationPage.checklist s) = true) /\
  (CalibrationPage.isCalibrating s = true ->
   CalibrationPage.isComplete s = false) /\
  (called = true ->
   CalibrationPage.isComplete s = true /\
   forallb CalibrationPage.completed (CalibrationPage.checklist s) = true).
Proof.
  intros s called.
  destruct (calibration_run_shape events CalibrationPage.initial false)
    as [Hshape Hcalled].
  - apply CalibrationPage.shape_fresh.
  - discriminate.
  - fold (CalibrationPage.run events CalibrationPage.initial) in Hshape, Hcalled.
    fold s in Hshape, Hcalled. fold called in Hcalled.
    assert (Hiff : CalibrationPage.isComplete s = true <->
                   forallb CalibrationPage.completed
                     (CalibrationPage.checklist s) = true)
      by (destruct Hshape; cbn; split; congruence).
    split; [destruct Hshape; cbn; lia|].
    split; [destruct Hshape; reflexivity|].
    split; [exact Hiff|].
    split; [destruct Hshape; cbn; congruence|].
    intros Hc. split; [now apply Hcalled | now apply Hiff, Hcalled].
Qed.

Lemma begin_practice_needs_calibration_witness :
  snd (CalibrationPage.run
         [CalibrationPage.ClickBeginPractice; CalibrationPage.ClickCalibrate;
          CalibrationPage.ClickCalibrate; CalibrationPage.TimeoutFires;
          CalibrationPage.ClickBeginPractice]
         CalibrationPage.initial) = true /\
  CalibrationPage.isComplete
    (fst (CalibrationPage.run
            [CalibrationPage.ClickBeginPractice;
             CalibrationPage.ClickCalibrate;
             CalibrationPage.ClickCalibrate; CalibrationPage.TimeoutFires;
             CalibrationPage.ClickBeginPractice]
            CalibrationPage.initial)) = true.
Proof.
  split; [reflexivity|].
  destruct (begin_practice_needs_calibration
              [CalibrationPage.ClickBeginPractice;
               CalibrationPage.ClickCalibrate;
               CalibrationPage.ClickCalibrate; CalibrationPage.TimeoutFires;
               CalibrationPage.ClickBeginPractice])
    as [_ [_ [_ [_ H]]]].
  apply H. reflexivity.
Defined.

(** ** The review page *)

Section ReviewPageFacts.
Import ReviewPage.

Lemma ge_true (x y : Q) : ge x y = true <-> (y <= x)%Q.
Proof. unfold ge. apply Qle_bool_iff. Qed.

Lemma ge_false (x y : Q) : ge x y = false <-> (x < y)%Q.
Proof.
  unfold ge. split.
  - intros H. apply Qnot_le_lt. intros Hle. apply Qle_bool_iff in Hle.
    congruence.
  - intros H. destruct (Qle_bool y x) eqn:E; [|reflexivity].
    apply Qle_bool_iff in E. exfalso. eapply Qlt_not_le; eassumption.
Qed.

(** The grade of a score, with the interval the score lies in. *)
Lemma grade_cases (x : Q) :
  ((90 <= x)%Q /\ letter (getGrade x) = "S"%string
   /\ getBarColor x = "#05df72"%string) \/
  ((80 <= x)%Q /\ (x < 90)%Q /\ letter (getGrade x) = "A"%string
   /\ getBarColor x = "#05df72"%string) \/
  ((70 <= x)%Q /\ (x < 80)%Q /\ letter (getGrade x) = "B"%string
   /\ getBarColor x = "#f9d949"%string) \/
  ((60 <= x)%Q /\ (x < 70)%Q /\ letter (getGrade x) = "C"%string
   /\ getBarColor x = "#f9d949"%string) \/
  ((x < 60)%Q /\ letter (getGrade x) = "D"%string
   /\ getBarColor x = "#fb2c36"%string).
Proof.
  unfold getGrade, getBarColor.
  destruct (ge x 90) eqn:E90; destruct (ge x 80) eqn:E80;
    destruct (ge x 70) eqn:E70; destruct (ge x 60) eqn:E60;
    repeat match goal with
           | H : ge _ _ = true |- _ => apply ge_true in H
           | H : ge _ _ = false |- _ => apply ge_false in H
           end;
    try (exfalso; lra);
    cbn [letter];
    [ left | right; left | right; right; left | right; right; right; left
    | right; right; right; right ];
    repeat split; try assumption; try reflexivity; try lra.
Qed.

Lemma barHeight_scaled (accuracy : Q) :
  (barHeight accuracy == accuracy * (32 # 25))%Q.
Proof. unfold barHeight. field. Qed.

End ReviewPageFacts.

(** X18: grades and bar colours follow the same thresholds.  A higher
    score never gets a lower letter in the order D, C, B, A, S; a bar is
    green exactly for the scores graded S or A, yellow exactly for B or C,
    and red exactly for D. *)
Theorem grade_and_bar_colour (score score' : Q) :
  ((score <= score')%Q ->
   ReviewPage.rank (ReviewPage.getGrade score)
   <= ReviewPage.rank (ReviewPage.getGrade score')) /\
  (ReviewPage.getBarColor score = "#05df72"%string <->
   ReviewPage.letter (ReviewPage.getGrade score) = "S"%string \/
   ReviewPage.letter (ReviewPage.getGrade score) = "A"%string) /\
  (ReviewPage.getBarColor score = "#f9d949"%string <->
   ReviewPage.letter (ReviewPage.getGrade score) = "B"%string \/
   ReviewPage.letter (ReviewPage.getGrade score) = "C"%string) /\
  (ReviewPage.getBarColor score = "#fb2c36"%string <->
   ReviewPage.letter (ReviewPage.getGrade score) = "D"%string).
Proof.
  split.
  - intros Hle. unfold ReviewPage.rank.
    destruct (grade_cases score) as [H|[H|[H|[H|H]]]];
      destruct (grade_cases score') as [H'|[H'|[H'|[H'|H']]]];
      repeat match goal with H : _ /\ _ |- _ => destruct H end;
      repeat match goal with
             | H : ReviewPage.letter _ = _ |- _ => rewrite H; clear H
             end;
      cbn; try lia; exfalso; lra.
  - destruct (grade_cases score) as [H|[H|[H|[H|H]]]];
      repeat match goal with H : _ /\ _ |- _ => destruct H end;
      repeat match goal with
             | H : ReviewPage.letter _ = _ |- _ => rewrite H; clear H
             | H : ReviewPage.getBarColor _ = _ |- _ => rewrite H; clear H
             end;
      repeat split; intros; try discriminate; auto; intuition discriminate.
Qed.

Lemma grade_and_bar_colour_witness :
  ReviewPage.rank (ReviewPage.getGrade 69)
  <= ReviewPage.rank (ReviewPage.getGrade 82).
Proof.
  destruct (grade_and_bar_colour 69 82) as [H _]. apply H. discriminate.
Defined.

(** X19: the bars of the chart.  A bar and the space above it always add
    up to the 128 px of the chart, and for an accuracy between 0 and 100 the
    bar lies within the chart.  Every bar has the opacity 0.25, whatever its
    accuracy.  Every red bar is marked as an error, but bars from 60 up to 70
    are marked as errors while they are yellow. *)
Theorem bars_of_the_chart (accuracy : Q) :
  (ReviewPage.barTop accuracy + ReviewPage.barHeight accuracy == 128)%Q /\
  ((0 <= accuracy)%Q -> (accuracy <= 100)%Q ->
   (0 <= ReviewPage.barHeight accuracy)%Q /\
   (ReviewPage.barHeight accuracy <= 128)%Q /\
   (0 <= ReviewPage.barTop accuracy)%Q) /\
  ReviewPage.getBarOpacity accuracy = 1 # 4 /\
  (ReviewPage.getBarColor accuracy = "#fb2c36"%string ->
   ReviewPage.isError accuracy = true) /\
  (ReviewPage.isError accuracy = true /\
   ReviewPage.getBarColor accuracy = "#f9d949"%string <->
   (60 <= accuracy)%Q /\ (accuracy < 70)%Q).
Proof.
  split; [|split; [|split; [|split]]].
  - unfold ReviewPage.barTop. ring.
  - intros H0 H1. unfold ReviewPage.barTop.
    rewrite barHeight_scaled. repeat split; lra.
  - unfold ReviewPage.getBarOpacity.
    destruct (ReviewPage.ge accuracy 80), (ReviewPage.ge accuracy 60);
      reflexivity.
  - unfold ReviewPage.isError, ReviewPage.lt.
    fold (ReviewPage.ge accuracy 70).
    destruct (grade_cases accuracy) as [H|[H|[H|[H|H]]]];
      repeat match goal with H : _ /\ _ |- _ => destruct H end;
      match goal with
      | H : ReviewPage.getBarColor _ = _ |- _ => rewrite H
      end; try discriminate.
    intros _. apply negb_true_iff, ge_false. lra.
  - unfold ReviewPage.isError, ReviewPage.lt.
    fold (ReviewPage.ge accuracy 70). rewrite negb_true_iff, ge_false.
    destruct (grade_cases accuracy) as [H|[H|[H|[H|H]]]];
      repeat match goal with H : _ /\ _ |- _ => destruct H end;
      match goal with
      | H : ReviewPage.getBarColor _ = _ |- _ => rewrite H
      end; split; intros [? ?]; try discriminate; try lra;
      repeat split; try reflexivity; lra.
Qed.

Lemma bars_of_the_chart_witness :
  Forall (fun accuracy => (0 <= ReviewPage.barTop accuracy)%Q)
    ReviewPage.beatPerformance /\
  ReviewPage.isError 69 = true.
Proof.
  split.
  - apply Forall_forall. intros accuracy Hin.
    destruct (bars_of_the_chart accuracy) as [_ [H _]].
    apply H;
      repeat (destruct Hin as [<-|Hin]; [unfold Qle; cbn; lia|]);
      destruct Hin.
  - destruct (bars_of_the_chart 69) as [_ [_ [_ [_ [_ H]]]]].
    apply H. split; unfold Qle, Qlt; cbn; lia.
Defined.

(** X20: the review page falls back to the first segment.  With a routine
    at hand, a segmentId that names one of its segments selects the first
    segment with that id; a missing or unknown segmentId selects the first
    segment of the routine; there is no segment only when the routine is
    missing or has no segments. *)
Theorem segment_falls_back_to_first (routine : option Timeline.Routine)
    (segmentId : option string) :
  (forall r wanted s,
     routine = Some r -> segmentId = Some wanted ->
     In s (Timeline.segments r) -> Timeline.segment_id s = wanted ->
     exists s' before after,
       ReviewPage.segment routine segmentId = Some s' /\
       Timeline.segment_id s' = wanted /\
       Timeline.segments r = before ++ s' :: after /\
       forall x, In x before -> Timeline.segment_id x <> wanted) /\
  (forall r,
     routine = Some r ->
     (forall s, In s (Timeline.segments r) ->
                Some (Timeline.segment_id s) <> segmentId) ->
     ReviewPage.segment routine segmentId = hd_error (Timeline.segments r)) /\
  (ReviewPage.segment routine segmentId = None <->
   routine = None \/
   exists r, routine = Some r /\ Timeline.segments r = []).
Proof.
  split; [|split].
  - intros r wanted s -> -> Hin Hid. unfold ReviewPage.segment.
    destruct (find _ (Timeline.segments r)) as [s'|] eqn:E.
    + destruct (find_first _ _ _ E) as [l1 [l2 [Hl [Hs' Hl1]]]].
      exists s', l1, l2. apply String.eqb_eq in Hs'.
      repeat split; try assumption.
      intros x Hx. apply String.eqb_neq. now apply Hl1.
    + pose proof (find_none _ _ E s Hin) as Hne. cbn in Hne.
      apply String.eqb_neq in Hne. contradiction.
  - intros r -> Hnone. unfold ReviewPage.segment.
    destruct (find _ (Timeline.segments r)) as [s'|] eqn:E; [|reflexivity].
    apply find_some in E. destruct E as [Hin Heq].
    destruct segmentId as [wanted|]; [|discriminate].
    apply String.eqb_eq in Heq. exfalso. apply (Hnone s' Hin). now rewrite Heq.
  - unfold ReviewPage.segment. destruct routine as [r|].
    + destruct (find _ (Timeline.segments r)) as [s'|] eqn:E.
      * split; [discriminate|]. intros [H|[r' [[= <-] Hr]]]; [discriminate|].
        rewrite Hr in E. discriminate E.
      * destruct (Timeline.segments r) as [|s0 l] eqn:El; cbn [hd_error].
        -- split; [|reflexivity]. intros _. right. now exists r.
        -- split; [discriminate|].
           intros [H|[r' [[= <-] Hr]]]; [discriminate|]. congruence.
    + split; [|reflexivity]. intros _. now left.
Qed.

Lemma segment_falls_back_to_first_witness :
  ReviewPage.segment
    (Some {| Timeline.id := "r1"; Timeline.title := "Demo";
             Timeline.bpm := 120;
             Timeline.segments :=
               [ {| Timeline.segment_id := "s1"; Timeline.name := "Intro";
                    Timeline.beats := 8 |};
                 {| Timeline.segment_id := "s2"; Timeline.name := "Verse";
                    Timeline.beats := 16 |} ] |})
    (Some "s9"%string) =
  Some {| Timeline.segment_id := "s1"; Timeline.name := "Intro";
          Timeline.beats := 8 |}.
Proof.
  destruct (segment_falls_back_to_first
              (Some {| Timeline.id := "r1"; Timeline.title := "Demo";
                       Timeline.bpm := 120;
                       Timeline.segments :=
                         [ {| Timeline.segment_id := "s1";
                              Timeline.name := "Intro";
                              Timeline.beats := 8 |};
                           {| Timeline.segment_id := "s2";
                              Timeline.name := "Verse";
                              Timeline.beats := 16 |} ] |})
              (Some "s9"%string)) as [_ [H _]].
  rewrite (H _ eq_refl); [reflexivity|].
  intros s [<-|[<-|[]]]; discriminate.
Defined.

(** ** The control bar *)

Section ControlBarFacts.
Import PracticeControlBar.

Lemma bar_run_invariant (events : list Event) :
  forall s,
    (speed s = 1%Q \/ speed s = 3 # 4) ->
    (loopCount s = 8 \/ loopCount s = 16) ->
    (speed (run events s) = 1%Q \/ speed (run events s) = 3 # 4) /\
    (loopCount (run events s) = 8 \/ loopCount (run events s) = 16) /\
    isOne (speed (run events s)) =
      (if Nat.even (speedClicks events) then isOne (speed s)
       else negb (isOne (speed s))).
Proof.
  unfold run, speedClicks.
  induction events as [|e events IH]; intros s Hs Hl.
  - cbn. auto.
  - destruct e; cbn [fold_left filter List.length].
    1, 2, 4:
      match goal with
      | |- context [fold_left step _ ?s'] =>
          destruct (IH s') as [H1 [H2 H3]];
          [cbn; auto | cbn; auto | split; [exact H1|split; [exact H2|exact H3]]]
      end.
    destruct (IH (step s ClickSpeed)) as [H1 [H2 H3]].
    + cbn. destruct (isOne (speed s)); auto.
    + cbn. exact Hl.
    + split; [exact H1|]. split; [exact H2|]. rewrite H3.
      rewrite Nat.even_succ, <- Nat.negb_even.
      cbn [step speed].
      destruct Hs as [-> | ->]; cbn;
        destruct (Nat.even (List.length _)); reflexivity.
Qed.

End ControlBarFacts.

(** X21: the speed button switches between 1x and 0.75x.  After any
    sequence of clicks on the bar the speed is 1 or 0.75, and it is 1 exactly
    when the speed button has been clicked an even number of times; the loop
    count is 8 or 16. *)
Theorem speed_alternates (events : list PracticeControlBar.Event) :
  let s := PracticeControlBar.run events PracticeControlBar.initial in
  (PracticeControlBar.speed s = 1%Q \/ PracticeControlBar.speed s = 3 # 4) /\
  (PracticeControlBar.speed s = 1%Q <->
   Nat.even (PracticeControlBar.speedClicks events) = true) /\
  (PracticeControlBar.loopCount s = 8 \/ PracticeControlBar.loopCount s = 16).
Proof.
  intros s.
  destruct (bar_run_invariant events PracticeControlBar.initial)
    as [Hs [Hl Hone]]; [now left | now left |].
  fold s in Hs, Hl, Hone. split; [exact Hs|]. split; [|exact Hl].
  cbn in Hone.
  destruct (Nat.even (PracticeControlBar.speedClicks events));
    destruct Hs as [Hs|Hs]; rewrite Hs in *; cbn in Hone;
    split; intros; try discriminate; try reflexivity.
Qed.

(** ** What the client sends *)

(** X22: every DanceAPI method makes one request and depends on the
    network through it alone: two networks that answer that request alike
    make the method settle alike.  The request goes to the base URL followed
    by the method's path and carries the header Content-Type:
    application/json; processSnapshot, startSession, endSession,
    loadReferenceVideo and updateConfig use POST, the four reading methods
    name no method and send no body. *)
Theorem one_json_request_per_call (fetch fetch' : DanceAPI.Fetch)
    T (m : DanceAPI.Method T) :
  (DanceAPI.sent fetch m = DanceAPI.sent fetch' m ->
   DanceAPI.call fetch m = DanceAPI.call fetch' m) /\
  DanceAPI.headers (DanceAPI.fetch_init (DanceAPI.options_of m))
    = Some [("Content-Type", "application/json")%string] /\
  (DanceAPI.method (DanceAPI.fetch_init (DanceAPI.options_of m))
     = Some "POST"%string \/
   DanceAPI.method (DanceAPI.fetch_init (DanceAPI.options_of m)) = None /\
   DanceAPI.body (DanceAPI.fetch_init (DanceAPI.options_of m)) = None) /\
  (DanceAPI.method (DanceAPI.fetch_init (DanceAPI.options_of m)) = None <->
   DanceAPI.options_of m = DanceAPI.no_options).
Proof.
  split; [|split; [|split]].
  - intros H. rewrite !call_is_request, !request_settles.
    unfold DanceAPI.sent in H. now rewrite H.
  - destruct m; reflexivity.
  - destruct m; cbn; auto.
  - destruct m; cbn; split; intros H; try discriminate H; reflexivity.
Qed.

Lemma one_json_request_per_call_witness :
  DanceAPI.call DanceAPI.internal_server_error DanceAPI.M_getSessionStatus
  = DanceAPI.call
      (fun T url init =>
         if String.eqb url "http://localhost:8000/api/sessions/status"
         then DanceAPI.internal_server_error T url init
         else DanceAPI.offline T url init)
      DanceAPI.M_getSessionStatus.
Proof.
  apply (one_json_request_per_call DanceAPI.internal_server_error
           (fun T url init =>
              if String.eqb url "http://localhost:8000/api/sessions/status"
              then DanceAPI.internal_server_error T url init
              else DanceAPI.offline T url init)
           _ DanceAPI.M_getSessionStatus).
  reflexivity.
Defined.

(** ** The message the interval draws *)

(** X23: the random index never runs past the array.  For every value
    Math.random() can return, at least 0 and below 1, the message drawn is
    one of the four of the array, and each of the four is drawn for some
    such value. *)
Theorem random_message_is_listed (random : Q) :
  ((0 <= random)%Q -> (random < 1)%Q ->
   In (LiveFeedback.randomMessage random) LiveFeedback.messages) /\
  (forall msg, In msg LiveFeedback.messages ->
     exists r, (0 <= r)%Q /\ (r < 1)%Q /\ LiveFeedback.randomMessage r = msg).
Proof.
  split.
  - intros H0 H1. unfold LiveFeedback.randomMessage. apply nth_In.
    change (List.length LiveFeedback.messages) with 4%nat.
    change (inject_Z (Z.of_nat 4)) with (4 : Q).
    assert (Hlo : 0 <= Math_floor (random * 4))
      by (apply Math_floor_nonneg; lra).
    assert (Hhi : Math_floor (random * 4) < 4).
    { apply Z.lt_nge. unfold Math_floor. rewrite floor_at_least.
      change (inject_Z 4) with (4 : Q). intros H. lra. }
    lia.
  - intros msg Hin.
    destruct Hin as [<-|[<-|[<-|[<-|[]]]]];
      [exists 0%Q | exists (1 # 4) | exists (1 # 2) | exists (3 # 4)];
      (split; [discriminate|]); (split; [reflexivity|]); reflexivity.
Qed.

Lemma random_message_is_listed_witness :
  In (LiveFeedback.randomMessage (99 # 100)) LiveFeedback.messages.
Proof.
  destruct (random_message_is_listed (99 # 100)) as [H _].
  apply H; [discriminate | reflexivity].
Defined.
